(** * Whiteboard: a shallow embedding of [src/components/Whiteboard.tsx]

    The component keeps a committed stroke list (React state [strokes]
    mirrored in [strokesRef]), an in-progress gesture ([isDrawingRef],
    [currentPointsRef]), the latest tool/colour/size in three ref cells, a
    map of remote cursors, and paints all of it on a 2D canvas.

    Conventions of the embedding.
    - A JavaScript [number] is an exact rational ([Q]); the component only
      stores and forwards coordinates and sizes, and subtracts the canvas
      offset from pointer coordinates.
    - Point arrays are JavaScript objects with identity: they live in a
      [heap] and strokes and [currentPointsRef] hold addresses, so that
      [pending.push(pt)] is visible through every alias of the array.
    - The 2D context is a record of the drawing-state attributes the
      component touches, a save/restore stack, the current path and the
      display list of what has been painted since the bitmap was last
      wiped.
    - A JavaScript [TypeError] (a property read on [undefined] or [null])
      is an explicit result, so "does not crash" is a statement. *)

From Stdlib Require Import QArith ZArith String List Bool Lia Lqa.
From Stdlib Require Import Qround.
From stdpp Require Import base list option strings pretty.

Local Open Scope string_scope.
Local Open Scope list_scope.

(** ** Results of code that may throw *)

Inductive result (A : Type) : Type :=
| Ok (a : A)
| TypeError (msg : string).
Arguments Ok {A} a.
Arguments TypeError {A} msg.

Definition rbind {A B : Type} (m : result A) (k : A -> result B) : result B :=
  match m with
  | Ok a => k a
  | TypeError msg => TypeError msg
  end.

Notation "'try!' x <- m ; k" := (rbind m (fun x => k))
  (at level 10, x name, m at level 100, k at level 200,
   format "'[v' 'try!'  x  <-  m ; '/' k ']'").

Definition succeeds {A : Type} (m : result A) : Prop := exists a, m = Ok a.

(** ** Data model (lines 4-22) *)

Definition number : Type := Q.
Bind Scope Q_scope with number.

Record Point : Type := mkPoint { p_x : number; p_y : number }.

(** Address of a point array in the heap. *)
Abbreviation addr := nat (only parsing).

(** [s_points] is [None] when the [points] property is missing ([null] or
    [undefined]), as it can be in a payload that arrives over the wire. *)
Record Stroke : Type := mkStroke {
  s_id : string;
  s_points : option addr;
  s_color : string;
  s_size : number;
  s_tool : string;
  s_userId : string
}.

Record RemoteCursor : Type := mkRemoteCursor {
  rc_userId : string;
  rc_userName : string;
  rc_userColor : string;
  rc_x : number;
  rc_y : number;
  rc_timestamp : Z
}.

(** The identity props closed over by the handlers (lines 36-39). *)
Record Props : Type := mkProps {
  roomId : string;
  userId : string;
  userName : string;
  userColor : string
}.

(** ** Heap of point arrays *)

Abbreviation Heap := (list (list Point)) (only parsing).

(** [deref h a] reads the array at [a]. *)
Definition deref (h : Heap) (a : addr) : list Point := default [] (h !! a).

(** [new Array] / an array literal: a fresh address. *)
Definition alloc (pts : list Point) (h : Heap) : addr * Heap :=
  (length h, h ++ [pts]).

(** [arr.push(pt)] on the array at [a], in place. *)
Definition push (a : addr) (pt : Point) (h : Heap) : Heap :=
  <[a := deref h a ++ [pt]]> h.

(** ** A JavaScript [Map] with string keys

    A [Map] iterates in insertion order and [set] on a present key keeps
    the key's position. *)

Abbreviation JsMap V := (list (string * V)) (only parsing).

Fixpoint map_set {V : Type} (k : string) (v : V) (m : JsMap V) : JsMap V :=
  match m with
  | [] => [(k, v)]
  | (k', v') :: rest =>
      if String.eqb k' k then (k, v) :: rest else (k', v') :: map_set k v rest
  end.

Definition map_keys {V : Type} (m : JsMap V) : list string := map fst m.

Fixpoint map_get {V : Type} (k : string) (m : JsMap V) : option V :=
  match m with
  | [] => None
  | (k', v') :: rest => if String.eqb k' k then Some v' else map_get k rest
  end.

(** ** The 2D canvas *)

Inductive PathCmd : Type :=
| MoveTo (x y : number)
| LineTo (x y : number)
| ArcFull (x y r : number).      (* arc(x, y, r, 0, Math.PI * 2) *)

(** The drawing-state attributes the component sets. *)
Record Ctx2D : Type := mkCtx2D {
  globalCompositeOperation : string;
  strokeStyle : string;
  fillStyle : string;
  lineWidth : number;
  lineJoin : string;
  lineCap : string;
  font : string
}.

(** One painting operation, with the drawing state it was issued under. *)
Inductive Paint : Type :=
| ClearRect (x y w h : number)
| FillRect (st : Ctx2D) (x y w h : number)
| StrokePath (st : Ctx2D) (path : list PathCmd)
| FillPath (st : Ctx2D) (path : list PathCmd)
| FillText (st : Ctx2D) (text : string) (x y : number).

(** [cv_width], [cv_height]: the bitmap size in device pixels.
    [cv_left] .. [cv_rheight]: [getBoundingClientRect()], in CSS pixels.
    [cv_scale]: the transform, which [resizeCanvas] sets to
    [setTransform(dpr, 0, 0, dpr, 0, 0)].
    [cv_surface]: what has been painted, oldest first. *)
Record Canvas : Type := mkCanvas {
  cv_width : N;
  cv_height : N;
  cv_left : number;
  cv_top : number;
  cv_rwidth : number;
  cv_rheight : number;
  cv_scale : number;
  cv_state : Ctx2D;
  cv_stack : list Ctx2D;
  cv_path : list PathCmd;
  cv_surface : list Paint
}.

Definition with_state (f : Ctx2D -> Ctx2D) (c : Canvas) : Canvas :=
  mkCanvas (cv_width c) (cv_height c) (cv_left c) (cv_top c) (cv_rwidth c)
    (cv_rheight c) (cv_scale c) (f (cv_state c)) (cv_stack c) (cv_path c)
    (cv_surface c).

Definition with_stack (st : Ctx2D) (stk : list Ctx2D) (c : Canvas) : Canvas :=
  mkCanvas (cv_width c) (cv_height c) (cv_left c) (cv_top c) (cv_rwidth c)
    (cv_rheight c) (cv_scale c) st stk (cv_path c) (cv_surface c).

Definition with_path (p : list PathCmd) (c : Canvas) : Canvas :=
  mkCanvas (cv_width c) (cv_height c) (cv_left c) (cv_top c) (cv_rwidth c)
    (cv_rheight c) (cv_scale c) (cv_state c) (cv_stack c) p (cv_surface c).

Definition with_surface (l : list Paint) (c : Canvas) : Canvas :=
  mkCanvas (cv_width c) (cv_height c) (cv_left c) (cv_top c) (cv_rwidth c)
    (cv_rheight c) (cv_scale c) (cv_state c) (cv_stack c) (cv_path c) l.

Definition paint (op : Paint) (c : Canvas) : Canvas :=
  with_surface (cv_surface c ++ [op]) c.

(** Attribute setters. *)
Definition set_globalCompositeOperation (v : string) : Canvas -> Canvas :=
  with_state (fun st => mkCtx2D v (strokeStyle st) (fillStyle st) (lineWidth st)
                          (lineJoin st) (lineCap st) (font st)).
Definition set_strokeStyle (v : string) : Canvas -> Canvas :=
  with_state (fun st => mkCtx2D (globalCompositeOperation st) v (fillStyle st)
                          (lineWidth st) (lineJoin st) (lineCap st) (font st)).
Definition set_fillStyle (v : string) : Canvas -> Canvas :=
  with_state (fun st => mkCtx2D (globalCompositeOperation st) (strokeStyle st) v
                          (lineWidth st) (lineJoin st) (lineCap st) (font st)).
Definition set_lineWidth (v : number) : Canvas -> Canvas :=
  with_state (fun st => mkCtx2D (globalCompositeOperation st) (strokeStyle st)
                          (fillStyle st) v (lineJoin st) (lineCap st) (font st)).
Definition set_lineJoin (v : string) : Canvas -> Canvas :=
  with_state (fun st => mkCtx2D (globalCompositeOperation st) (strokeStyle st)
                          (fillStyle st) (lineWidth st) v (lineCap st) (font st)).
Definition set_lineCap (v : string) : Canvas -> Canvas :=
  with_state (fun st => mkCtx2D (globalCompositeOperation st) (strokeStyle st)
                          (fillStyle st) (lineWidth st) (lineJoin st) v (font st)).
Definition set_font (v : string) : Canvas -> Canvas :=
  with_state (fun st => mkCtx2D (globalCompositeOperation st) (strokeStyle st)
                          (fillStyle st) (lineWidth st) (lineJoin st) (lineCap st) v).

(** [ctx.save()] pushes the drawing state, [ctx.restore()] pops it and does
    nothing on an empty stack. The current path and the bitmap are not part
    of the saved state. *)
Definition save (c : Canvas) : Canvas :=
  with_stack (cv_state c) (cv_state c :: cv_stack c) c.

Definition restore (c : Canvas) : Canvas :=
  match cv_stack c with
  | [] => c
  | st :: stk => with_stack st stk c
  end.

(** Does the rectangle, mapped through the transform, cover the bitmap? *)
Definition covers_bitmap (c : Canvas) (x y w h : number) : bool :=
  Qle_bool (x * cv_scale c) 0 && Qle_bool (y * cv_scale c) 0
  && Qle_bool (inject_Z (Z.of_N (cv_width c))) ((x + w) * cv_scale c)
  && Qle_bool (inject_Z (Z.of_N (cv_height c))) ((y + h) * cv_scale c).

(** [ctx.clearRect]: the pixels of the rectangle become transparent. When
    the rectangle covers the bitmap nothing painted before remains. *)
Definition clearRect (x y w h : number) (c : Canvas) : Canvas :=
  if covers_bitmap c x y w h then with_surface [] c
  else paint (ClearRect x y w h) c.

Definition fillRect (x y w h : number) (c : Canvas) : Canvas :=
  paint (FillRect (cv_state c) x y w h) c.

Definition beginPath (c : Canvas) : Canvas := with_path [] c.
Definition moveTo (x y : number) (c : Canvas) : Canvas :=
  with_path (cv_path c ++ [MoveTo x y]) c.
Definition lineTo (x y : number) (c : Canvas) : Canvas :=
  with_path (cv_path c ++ [LineTo x y]) c.
Definition arcFull (x y r : number) (c : Canvas) : Canvas :=
  with_path (cv_path c ++ [ArcFull x y r]) c.
Definition stroke (c : Canvas) : Canvas :=
  paint (StrokePath (cv_state c) (cv_path c)) c.
Definition fill (c : Canvas) : Canvas :=
  paint (FillPath (cv_state c) (cv_path c)) c.
Definition fillText (text : string) (x y : number) (c : Canvas) : Canvas :=
  paint (FillText (cv_state c) text x y) c.

(** [arr[i]] followed by a property read: a [TypeError] when the element
    is [undefined]. *)
Definition elem (pts : list Point) (i : nat) : result Point :=
  match pts !! i with
  | Some p => Ok p
  | None => TypeError "Cannot read properties of undefined"
  end.

(** ** Wire formats *)

(** A row of [whiteboard_strokes] as it arrives in a realtime payload
    ([payload.new], lines 198-205) or in the result of [loadStrokes]. *)
Record StrokeRow : Type := mkStrokeRow {
  row_id : string;
  row_points : option (list Point);
  row_color : string;
  row_size : number;
  row_tool : string;
  row_user_id : string
}.

(** The object handed to [supabase.from("whiteboard_strokes").insert]
    (lines 384-393); [ins_points] is what the point array holds when the
    request is made. *)
Record InsertRow : Type := mkInsertRow {
  ins_room_id : string;
  ins_user_id : string;
  ins_user_name : string;
  ins_user_color : string;
  ins_points : list Point;
  ins_color : string;
  ins_size : number;
  ins_tool : string
}.

(** A presence record, as tracked (lines 347-354) and as delivered by
    [presenceState()]. *)
Record Presence : Type := mkPresence {
  user_id : string;
  user_name : string;
  user_color : string;
  pr_x : number;
  pr_y : number;
  pr_timestamp : Z
}.

(** [presenceState()]: an object from connection keys to arrays of presence
    records, listed in [Object.keys] order. *)
Abbreviation PresenceState := (list (string * list Presence)) (only parsing).

(** ** Component state *)

(** [strokes] is the React state of line 48, the rest are the ref cells of
    lines 45-63 and the state of line 49. [inserts], [tracked] and
    [console] log what the component sent to the persistence port, to the
    presence channel and to [console.error]. *)
Record State : Type := mkState {
  strokes : list Stroke;
  strokesRef : list Stroke;
  remoteCursors : JsMap RemoteCursor;
  isDrawingRef : bool;
  currentPointsRef : option addr;
  currentColorRef : string;
  currentToolRef : string;
  brushSizeRef : number;
  heap : Heap;
  canvasRef : option Canvas;
  inserts : list InsertRow;
  tracked : list Presence;
  console : list string
}.

Definition set_strokes (v : list Stroke) (s : State) : State :=
  mkState v (strokesRef s) (remoteCursors s) (isDrawingRef s)
    (currentPointsRef s) (currentColorRef s) (currentToolRef s) (brushSizeRef s)
    (heap s) (canvasRef s) (inserts s) (tracked s) (console s).
Definition set_strokesRef (v : list Stroke) (s : State) : State :=
  mkState (strokes s) v (remoteCursors s) (isDrawingRef s)
    (currentPointsRef s) (currentColorRef s) (currentToolRef s) (brushSizeRef s)
    (heap s) (canvasRef s) (inserts s) (tracked s) (console s).
Definition set_remoteCursors (v : JsMap RemoteCursor) (s : State) : State :=
  mkState (strokes s) (strokesRef s) v (isDrawingRef s)
    (currentPointsRef s) (currentColorRef s) (currentToolRef s) (brushSizeRef s)
    (heap s) (canvasRef s) (inserts s) (tracked s) (console s).
Definition set_isDrawingRef (v : bool) (s : State) : State :=
  mkState (strokes s) (strokesRef s) (remoteCursors s) v
    (currentPointsRef s) (currentColorRef s) (currentToolRef s) (brushSizeRef s)
    (heap s) (canvasRef s) (inserts s) (tracked s) (console s).
Definition set_currentPointsRef (v : option addr) (s : State) : State :=
  mkState (strokes s) (strokesRef s) (remoteCursors s) (isDrawingRef s)
    v (currentColorRef s) (currentToolRef s) (brushSizeRef s)
    (heap s) (canvasRef s) (inserts s) (tracked s) (console s).
Definition set_currentColorRef (v : string) (s : State) : State :=
  mkState (strokes s) (strokesRef s) (remoteCursors s) (isDrawingRef s)
    (currentPointsRef s) v (currentToolRef s) (brushSizeRef s)
    (heap s) (canvasRef s) (inserts s) (tracked s) (console s).
Definition set_currentToolRef (v : string) (s : State) : State :=
  mkState (strokes s) (strokesRef s) (remoteCursors s) (isDrawingRef s)
    (currentPointsRef s) (currentColorRef s) v (brushSizeRef s)
    (heap s) (canvasRef s) (inserts s) (tracked s) (console s).
Definition set_brushSizeRef (v : number) (s : State) : State :=
  mkState (strokes s) (strokesRef s) (remoteCursors s) (isDrawingRef s)
    (currentPointsRef s) (currentColorRef s) (currentToolRef s) v
    (heap s) (canvasRef s) (inserts s) (tracked s) (console s).
Definition set_heap (v : Heap) (s : State) : State :=
  mkState (strokes s) (strokesRef s) (remoteCursors s) (isDrawingRef s)
    (currentPointsRef s) (currentColorRef s) (currentToolRef s) (brushSizeRef s)
    v (canvasRef s) (inserts s) (tracked s) (console s).
Definition set_canvasRef (v : option Canvas) (s : State) : State :=
  mkState (strokes s) (strokesRef s) (remoteCursors s) (isDrawingRef s)
    (currentPointsRef s) (currentColorRef s) (currentToolRef s) (brushSizeRef s)
    (heap s) v (inserts s) (tracked s) (console s).
Definition set_inserts (v : list InsertRow) (s : State) : State :=
  mkState (strokes s) (strokesRef s) (remoteCursors s) (isDrawingRef s)
    (currentPointsRef s) (currentColorRef s) (currentToolRef s) (brushSizeRef s)
    (heap s) (canvasRef s) v (tracked s) (console s).
Definition set_tracked (v : list Presence) (s : State) : State :=
  mkState (strokes s) (strokesRef s) (remoteCursors s) (isDrawingRef s)
    (currentPointsRef s) (currentColorRef s) (currentToolRef s) (brushSizeRef s)
    (heap s) (canvasRef s) (inserts s) v (console s).
Definition set_console (v : list string) (s : State) : State :=
  mkState (strokes s) (strokesRef s) (remoteCursors s) (isDrawingRef s)
    (currentPointsRef s) (currentColorRef s) (currentToolRef s) (brushSizeRef s)
    (heap s) (canvasRef s) (inserts s) (tracked s) v.

(** ** The renderer *)

(** The [for (let i = 1; i < points.length; i++) ctx.lineTo(...)] loops of
    lines 144-147 and 163-165. *)
Definition lineTo_rest (points : list Point) (c : Canvas) : Canvas :=
  fold_left (fun c p => lineTo (p_x p) (p_y p) c) (drop 1 points) c.

(** The body of the loop over [strokesRef.current] (lines 134-148). *)
Definition draw_stroke (h : Heap) (sk : Stroke) (c : Canvas) : result Canvas :=
  match s_points sk with
  | None => Ok c
  | Some a =>
      let points := deref h a in
      if (length points <? 2)%nat then Ok c
      else
        let c :=
          if String.eqb (s_tool sk) "eraser"
          then set_globalCompositeOperation "destination-out" c
          else set_strokeStyle (s_color sk)
                 (set_globalCompositeOperation "source-over" c) in
        let c := set_lineWidth (s_size sk) c in
        let c := beginPath c in
        try! p0 <- elem points 0;
        let c := moveTo (p_x p0) (p_y p0) c in
        let c := lineTo_rest points c in
        Ok (stroke c)
  end.

Fixpoint draw_strokes (h : Heap) (l : list Stroke) (c : Canvas) : result Canvas :=
  match l with
  | [] => Ok c
  | sk :: rest =>
      try! c <- draw_stroke h sk c;
      draw_strokes h rest c
  end.

(** The transient stroke (lines 152-168). *)
Definition draw_pending (s : State) (c : Canvas) : result Canvas :=
  match currentPointsRef s with
  | None => Ok c
  | Some a =>
      let pending := deref (heap s) a in
      if (2 <=? length pending)%nat then
        let c := beginPath c in
        let c :=
          if String.eqb (currentToolRef s) "eraser"
          then set_globalCompositeOperation "destination-out" c
          else set_strokeStyle (currentColorRef s)
                 (set_globalCompositeOperation "source-over" c) in
        let c := set_lineWidth (brushSizeRef s) c in
        try! p0 <- elem pending 0;
        let c := moveTo (p_x p0) (p_y p0) c in
        let c := lineTo_rest pending c in
        let c := stroke c in
        Ok (set_globalCompositeOperation "source-over" c)
      else Ok c
  end.

(** The callback of [remoteCursors.forEach] (lines 171-179). *)
Definition draw_cursor (cursor : RemoteCursor) (c : Canvas) : Canvas :=
  let c := set_fillStyle (rc_userColor cursor) c in
  let c := beginPath c in
  let c := arcFull (rc_x cursor) (rc_y cursor) 8 c in
  let c := fill c in
  let c := set_font "12px Inter, sans-serif" c in
  let c := set_fillStyle "#ffffff" c in
  fillText (rc_userName cursor) (rc_x cursor + 12) (rc_y cursor + 4) c.

Definition draw_cursors (m : JsMap RemoteCursor) (c : Canvas) : Canvas :=
  fold_left (fun c kv => draw_cursor (snd kv) c) m c.

(** [redrawAll] on a mounted canvas (lines 123-181). *)
Definition redraw (s : State) (c : Canvas) : result Canvas :=
  let c := save c in
  let c := clearRect 0 0 (inject_Z (Z.of_N (cv_width c)))
             (inject_Z (Z.of_N (cv_height c))) c in
  let c := set_fillStyle "#1e293b" c in
  let c := fillRect 0 0 (cv_rwidth c) (cv_rheight c) c in
  let c := set_lineJoin "round" c in
  let c := set_lineCap "round" c in
  try! c <- draw_strokes (heap s) (strokesRef s) c;
  try! c <- draw_pending s c;
  let c := draw_cursors (remoteCursors s) c in
  Ok (restore c).

(** [redrawAll] (lines 117-182): nothing happens without a canvas. *)
Definition redrawAll (s : State) : result State :=
  match canvasRef s with
  | None => Ok s
  | Some c =>
      try! c <- redraw s c;
      Ok (set_canvasRef (Some c) s)
  end.

(** [drawSegment] (lines 308-329); [from] is [undefined] when the caller
    read past the end of an array. *)
Definition drawSegment (from : option Point) (to : Point) (s : State)
  : result State :=
  match canvasRef s with
  | None => Ok s
  | Some c =>
      let c := save c in
      let c :=
        if String.eqb (currentToolRef s) "eraser"
        then set_globalCompositeOperation "destination-out" c
        else set_strokeStyle (currentColorRef s)
               (set_globalCompositeOperation "source-over" c) in
      let c := set_lineWidth (brushSizeRef s) c in
      let c := set_lineJoin "round" c in
      let c := set_lineCap "round" c in
      let c := beginPath c in
      match from with
      | None => TypeError "Cannot read properties of undefined (reading 'x')"
      | Some from =>
          let c := moveTo (p_x from) (p_y from) c in
          let c := lineTo (p_x to) (p_y to) c in
          let c := stroke c in
          Ok (set_canvasRef (Some (restore c)) s)
      end
  end.

(** ** React plumbing *)

(** After a handler that called [setStrokes] returns, React re-renders and
    runs the effects that depend on [strokes] (lines 58 and 279-282). *)
Definition rerender_strokes (s : State) : result State :=
  redrawAll (set_strokesRef (strokes s) s).

(** After [setRemoteCursors], [redrawAll] is a new callback, so the effect
    of lines 279-282 and the effect of line 284 both run. *)
Definition rerender_cursors (s : State) : result State :=
  try! s <- redrawAll (set_strokesRef (strokes s) s);
  redrawAll s.

(** ** The stroke log: remote notifications and the initial load *)

(** Builds the [Stroke] object for a row; the row's point array, when
    there is one, is a new object. *)
Definition stroke_of_row (r : StrokeRow) (h : Heap) : Stroke * Heap :=
  match row_points r with
  | None =>
      (mkStroke (row_id r) None (row_color r) (row_size r) (row_tool r)
         (row_user_id r), h)
  | Some pts =>
      let '(a, h) := alloc pts h in
      (mkStroke (row_id r) (Some a) (row_color r) (row_size r) (row_tool r)
         (row_user_id r), h)
  end.

Fixpoint strokes_of_rows (rows : list StrokeRow) (h : Heap)
  : list Stroke * Heap :=
  match rows with
  | [] => ([], h)
  | r :: rest =>
      let '(sk, h) := stroke_of_row r h in
      let '(sks, h) := strokes_of_rows rest h in
      (sk :: sks, h)
  end.

(** The INSERT callback (lines 197-211). *)
Definition onInsert (payload : StrokeRow) (s : State) : result State :=
  let '(newStroke, h) := stroke_of_row payload (heap s) in
  let s := set_heap h s in
  let next := strokes s ++ [newStroke] in
  let s := set_strokesRef next s in
  let s := set_strokes next s in
  rerender_strokes s.

(** The DELETE callback (lines 220-223). *)
Definition onDelete (s : State) : result State :=
  let s := set_strokes [] s in
  let s := set_strokesRef [] s in
  rerender_strokes s.

(** The continuation of [loadStrokes] after its query settles
    (lines 97-114). *)
Definition loadStrokes_resume (data : option (list StrokeRow))
    (error : option string) (s : State) : result State :=
  match error with
  | Some e => Ok (set_console (console s ++ ["Error loading strokes: " +:+ e]) s)
  | None =>
      match data with
      | Some rows =>
          let '(parsed, h) := strokes_of_rows rows (heap s) in
          rerender_strokes (set_strokes parsed (set_heap h s))
      | None => rerender_strokes (set_strokes [] s)
      end
  end.

(** ** Presence (lines 237-258) *)

Definition cursor_of_presence (presence : Presence) : RemoteCursor :=
  mkRemoteCursor (user_id presence) (user_name presence) (user_color presence)
    (pr_x presence) (pr_y presence) (pr_timestamp presence).

(** The callback of [Object.keys(state).forEach]. *)
Definition sync_key (pr : Props) (state : PresenceState)
    (cursors : JsMap RemoteCursor) (key : string) : JsMap RemoteCursor :=
  match map_get key state with
  | Some (presence :: _) =>
      if String.eqb (user_id presence) (userId pr) then cursors
      else map_set (user_id presence) (cursor_of_presence presence) cursors
  | _ => cursors
  end.

Definition sync_cursors (pr : Props) (state : PresenceState)
  : JsMap RemoteCursor :=
  fold_left (sync_key pr state) (map_keys state) [].

Definition onPresenceSync (pr : Props) (state : PresenceState) (s : State)
  : result State :=
  rerender_cursors (set_remoteCursors (sync_cursors pr state) s).

(** ** Local capture (lines 299-407) *)

(** [canvasRef.current!.getBoundingClientRect()] throws without a canvas. *)
Definition getPointFromEvent (clientX clientY : number) (s : State)
  : result Point :=
  match canvasRef s with
  | None => TypeError "Cannot read properties of null"
  | Some c => Ok (mkPoint (clientX - cv_left c) (clientY - cv_top c))
  end.

(** [button] is [None] for an event without a [button] property. The
    array literal [[pt]] is a new array. *)
Definition handlePointerDown (button : option Z) (clientX clientY : number)
    (s : State) : result State :=
  if match button with Some b => negb (b =? 0)%Z | None => false end then Ok s
  else
    let s := set_isDrawingRef true s in
    try! pt <- getPointFromEvent clientX clientY s;
    let '(a, h) := alloc [pt] (heap s) in
    Ok (set_currentPointsRef (Some a) (set_heap h s)).

(** [cursorChannel.current] was set by the presence effect (line 234)
    before this handler was attached, so the position is always tracked.
    [pending[pending.length - 1]] is [undefined] on an empty array. *)
Definition handlePointerMove (pr : Props) (clientX clientY : number) (now : Z)
    (s : State) : result State :=
  try! pt <- getPointFromEvent clientX clientY s;
  let s :=
    set_tracked
      (tracked s ++
         [mkPresence (userId pr) (userName pr) (userColor pr)
            (p_x pt) (p_y pt) now]) s in
  if negb (isDrawingRef s) then Ok s
  else
    match currentPointsRef s with
    | None => Ok s
    | Some a =>
        let pending := deref (heap s) a in
        let prev := last pending in
        let s := set_heap (push a pt (heap s)) s in
        drawSegment prev pt s
    end.

(** [commitStroke] up to its [await] (lines 366-393), followed by the
    re-render that the [setStrokes] call causes. [now] is [Date.now()]. *)
Definition commitStroke (pr : Props) (now : Z) (s : State) : result State :=
  match currentPointsRef s with
  | None => Ok s
  | Some a =>
      if (length (deref (heap s) a) =? 0)%nat then Ok s
      else
        let tempId := "local-" +:+ pretty now in
        let localStroke :=
          mkStroke tempId (Some a) (currentColorRef s) (brushSizeRef s)
            (currentToolRef s) (userId pr) in
        let next := strokes s ++ [localStroke] in
        let s := set_strokesRef next s in
        let s := set_strokes next s in
        let row :=
          mkInsertRow (roomId pr) (userId pr) (userName pr) (userColor pr)
            (deref (heap s) a) (currentColorRef s) (brushSizeRef s)
            (currentToolRef s) in
        let s := set_inserts (inserts s ++ [row]) s in
        rerender_strokes s
  end.

(** [commitStroke] after the insert settles (lines 395-399). *)
Definition commitStroke_resume (error : option string) (s : State) : State :=
  let s :=
    match error with
    | Some e => set_console (console s ++ ["Error saving stroke: " +:+ e]) s
    | None => s
    end in
  set_currentPointsRef None s.

Definition handlePointerUp (pr : Props) (now : Z) (s : State) : result State :=
  if negb (isDrawingRef s) then Ok s
  else commitStroke pr now (set_isDrawingRef false s).

(** ** Events *)

Inductive Event : Type :=
| PointerDown (button : option Z) (clientX clientY : number)
| PointerMove (clientX clientY : number) (now : Z)
| PointerUp (now : Z)
| InsertSettled (error : option string)
| RemoteInsert (payload : StrokeRow)
| RemoteDelete
| PresenceSync (state : PresenceState)
| LoadSettled (data : option (list StrokeRow)) (error : option string)
| SetColor (v : string)
| SetTool (v : string)
| SetBrushSize (v : number).

(** One turn of the event loop. The last three events are the effects of
    lines 65-67 after the corresponding prop changed. *)
Definition step (pr : Props) (ev : Event) (s : State) : result State :=
  match ev with
  | PointerDown button clientX clientY => handlePointerDown button clientX clientY s
  | PointerMove clientX clientY now => handlePointerMove pr clientX clientY now s
  | PointerUp now => handlePointerUp pr now s
  | InsertSettled error => Ok (commitStroke_resume error s)
  | RemoteInsert payload => onInsert payload s
  | RemoteDelete => onDelete s
  | PresenceSync state => onPresenceSync pr state s
  | LoadSettled data error => loadStrokes_resume data error s
  | SetColor v => Ok (set_currentColorRef v s)
  | SetTool v => Ok (set_currentToolRef v s)
  | SetBrushSize v => Ok (set_brushSizeRef v s)
  end.

Fixpoint run (pr : Props) (evs : list Event) (s : State) : result State :=
  match evs with
  | [] => Ok s
  | ev :: rest =>
      try! s <- step pr ev s;
      run pr rest s
  end.

(** The state of a freshly mounted component (lines 45-63). *)
Definition initial (color tool : string) (size : number) (c : Canvas) : State :=
  mkState [] [] [] false None color tool size [] (Some c) [] [] [].

(** * What a full redraw paints

    A declarative description of the display list, against which the
    imperative renderer above is proved. *)

(** The drawing state a stroke is painted under, from the state before it:
    an eraser only switches the compositing mode, any other tool also sets
    the stroke colour. *)
Definition style_for (tool color : string) (size : number) (st : Ctx2D) : Ctx2D :=
  if String.eqb tool "eraser"
  then mkCtx2D "destination-out" (strokeStyle st) (fillStyle st) size
         (lineJoin st) (lineCap st) (font st)
  else mkCtx2D "source-over" color (fillStyle st) size
         (lineJoin st) (lineCap st) (font st).

Definition polyline (points : list Point) : list PathCmd :=
  match points with
  | [] => []
  | p0 :: rest => MoveTo (p_x p0) (p_y p0) :: map (fun p => LineTo (p_x p) (p_y p)) rest
  end.

(** The points of a stroke that is drawn at all: present and at least two. *)
Definition visible_points (h : Heap) (sk : Stroke) : option (list Point) :=
  match s_points sk with
  | None => None
  | Some a => if (length (deref h a) <? 2)%nat then None else Some (deref h a)
  end.

Fixpoint committed_paint (h : Heap) (l : list Stroke) (st : Ctx2D)
  : list Paint * Ctx2D :=
  match l with
  | [] => ([], st)
  | sk :: rest =>
      match visible_points h sk with
      | None => committed_paint h rest st
      | Some pts =>
          let st' := style_for (s_tool sk) (s_color sk) (s_size sk) st in
          (StrokePath st' (polyline pts) :: fst (committed_paint h rest st'),
           snd (committed_paint h rest st'))
      end
  end.

(** The array [currentPointsRef] holds, when it has at least two points. *)
Definition pending_points (s : State) : option (list Point) :=
  match currentPointsRef s with
  | None => None
  | Some a =>
      if (2 <=? length (deref (heap s) a))%nat then Some (deref (heap s) a)
      else None
  end.

Definition source_over (st : Ctx2D) : Ctx2D :=
  mkCtx2D "source-over" (strokeStyle st) (fillStyle st) (lineWidth st)
    (lineJoin st) (lineCap st) (font st).

Definition pending_paint (s : State) (st : Ctx2D) : list Paint * Ctx2D :=
  match pending_points s with
  | None => ([], st)
  | Some pts =>
      let st' := style_for (currentToolRef s) (currentColorRef s) (brushSizeRef s) st in
      ([StrokePath st' (polyline pts)], source_over st')
  end.

Definition dot_style (cursor : RemoteCursor) (st : Ctx2D) : Ctx2D :=
  mkCtx2D (globalCompositeOperation st) (strokeStyle st) (rc_userColor cursor)
    (lineWidth st) (lineJoin st) (lineCap st) (font st).

Definition label_style (st : Ctx2D) : Ctx2D :=
  mkCtx2D (globalCompositeOperation st) (strokeStyle st) "#ffffff"
    (lineWidth st) (lineJoin st) (lineCap st) "12px Inter, sans-serif".

Fixpoint cursor_paint (m : JsMap RemoteCursor) (st : Ctx2D) : list Paint :=
  match m with
  | [] => []
  | (_, cursor) :: rest =>
      FillPath (dot_style cursor st) [ArcFull (rc_x cursor) (rc_y cursor) 8]
      :: FillText (label_style st) (rc_userName cursor)
           (rc_x cursor + 12) (rc_y cursor + 4)
      :: cursor_paint rest (label_style st)
  end.

Definition background_style (st : Ctx2D) : Ctx2D :=
  mkCtx2D (globalCompositeOperation st) (strokeStyle st) "#1e293b"
    (lineWidth st) (lineJoin st) (lineCap st) (font st).

Definition round_style (st : Ctx2D) : Ctx2D :=
  mkCtx2D (globalCompositeOperation st) (strokeStyle st) (fillStyle st)
    (lineWidth st) "round" "round" (font st).

Definition background_paint (c : Canvas) : Paint :=
  FillRect (background_style (cv_state c)) 0 0 (cv_rwidth c) (cv_rheight c).

(** The state the committed strokes start from. *)
Definition scene_state (c : Canvas) : Ctx2D :=
  round_style (background_style (cv_state c)).

(** Everything a redraw paints after the background, for the committed
    list [l]. *)
Definition foreground (l : list Stroke) (s : State) (c : Canvas) : list Paint :=
  let committed := committed_paint (heap s) l (scene_state c) in
  let pending := pending_paint s (snd committed) in
  fst committed ++ fst pending ++ cursor_paint (remoteCursors s) (snd pending).

(** What is left of earlier paint once [redrawAll] has cleared. *)
Definition residue (c : Canvas) : list Paint :=
  cv_surface
    (clearRect 0 0 (inject_Z (Z.of_N (cv_width c)))
       (inject_Z (Z.of_N (cv_height c))) c).

(** The canvas fields a redraw leaves as they were. *)
Definition same_frame (c c' : Canvas) : Prop :=
  cv_width c' = cv_width c /\ cv_height c' = cv_height c
  /\ cv_left c' = cv_left c /\ cv_top c' = cv_top c
  /\ cv_rwidth c' = cv_rwidth c /\ cv_rheight c' = cv_rheight c
  /\ cv_scale c' = cv_scale c /\ cv_stack c' = cv_stack c.

(** What is on screen: the display list of the mounted canvas. *)
Definition screen (s : State) : list Paint :=
  match canvasRef s with
  | None => []
  | Some c => cv_surface c
  end.

(** The canvas after a path was stroked under [st]. *)
Definition stroked (st : Ctx2D) (path : list PathCmd) (c : Canvas) : Canvas :=
  mkCanvas (cv_width c) (cv_height c) (cv_left c) (cv_top c) (cv_rwidth c)
    (cv_rheight c) (cv_scale c) st (cv_stack c) path
    (cv_surface c ++ [StrokePath st path]).

(** The canvas after the clear and the background (lines 123-130). *)
Definition prelude (c : Canvas) : Canvas :=
  let c := save c in
  let c := clearRect 0 0 (inject_Z (Z.of_N (cv_width c)))
             (inject_Z (Z.of_N (cv_height c))) c in
  let c := set_fillStyle "#1e293b" c in
  let c := fillRect 0 0 (cv_rwidth c) (cv_rheight c) c in
  let c := set_lineJoin "round" c in
  set_lineCap "round" c.

(** ** Well-formed states *)

Definition stroke_addrs (l : list Stroke) : list addr :=
  omap s_points l.

Definition in_heap (h : Heap) (a : addr) : bool := (a <? length h)%nat.

(** Every address held by the state is allocated, and while a gesture is
    being captured its array is not the array of a committed stroke. *)
Definition wf (s : State) : bool :=
  forallb (in_heap (heap s)) (stroke_addrs (strokes s))
  && forallb (in_heap (heap s)) (stroke_addrs (strokesRef s))
  && match currentPointsRef s with
     | None => true
     | Some a =>
         in_heap (heap s) a
         && (negb (isDrawingRef s)
             || (forallb (fun b => negb (a =? b)%nat) (stroke_addrs (strokes s))
                 && forallb (fun b => negb (a =? b)%nat)
                      (stroke_addrs (strokesRef s))))
     end.

(** The same invariant as a proposition. *)
Definition WF (s : State) : Prop :=
  Forall (fun a => a < length (heap s)) (stroke_addrs (strokes s))
  /\ Forall (fun a => a < length (heap s)) (stroke_addrs (strokesRef s))
  /\ forall a, currentPointsRef s = Some a ->
       a < length (heap s)
       /\ ((isDrawingRef s = true) ->
           (a ∉ stroke_addrs (strokes s)) /\ (a ∉ stroke_addrs (strokesRef s))).

(** The points recorded for the gesture being captured; none when
    [currentPointsRef] is [null]. *)
Definition gesture_points (s : State) : list Point :=
  match currentPointsRef s with
  | None => []
  | Some a => deref (heap s) a
  end.

(** The events between the pointer-down and the pointer-up of a gesture:
    moves and changes of tool, colour or size. *)
Definition mid_gesture (ev : Event) : bool :=
  match ev with
  | PointerMove _ _ _ | SetColor _ | SetTool _ | SetBrushSize _ => true
  | _ => false
  end.


(** The events that keep the committed list: all but the clear and the
    result of the initial load, which replace it. *)
Definition keeps_log (ev : Event) : bool :=
  match ev with
  | RemoteDelete | LoadSettled _ _ => false
  | _ => true
  end.

(** A remote row whose stroke cannot be drawn: no point array, or fewer
    than two points. *)
Definition short_row (r : StrokeRow) : bool :=
  match row_points r with
  | None => true
  | Some pts => (length pts <? 2)%nat
  end.

(** ** Fixtures for the examples *)

Definition demo_ctx : Ctx2D :=
  mkCtx2D "source-over" "#000000" "#000000" 1 "miter" "butt" "10px sans-serif".

(** A 400 x 300 CSS-pixel canvas at a device pixel ratio of 2. *)
Definition demo_canvas : Canvas :=
  mkCanvas 800 600 0 0 400 300 2 demo_ctx [] [] [].

Definition demo_props : Props := mkProps "R1" "U1" "Ann" "#22c55e".

Definition demo_state : State := initial "#ff0000" "pen" 4 demo_canvas.

(** The state after a list of events, from [demo_state]. *)
Definition demo_after (evs : list Event) : State :=
  match run demo_props evs demo_state with
  | Ok s => s
  | TypeError _ => demo_state
  end.

(** The stroke [commitStroke] builds and the row it submits, for the
    point array at [a] (lines 369-376 and 384-393). *)
Definition local_stroke (pr : Props) (now : Z) (a : addr) (s : State) : Stroke :=
  mkStroke ("local-" +:+ pretty now) (Some a) (currentColorRef s)
    (brushSizeRef s) (currentToolRef s) (userId pr).

Definition insert_row (pr : Props) (a : addr) (s : State) : InsertRow :=
  mkInsertRow (roomId pr) (userId pr) (userName pr) (userColor pr)
    (deref (heap s) a) (currentColorRef s) (brushSizeRef s) (currentToolRef s).

(** The latest colour, tool and size after the events [evs], from the
    values [d] before them. *)
Definition live_color (evs : list Event) (d : string) : string :=
  fold_left (fun v ev => match ev with SetColor w => w | _ => v end) evs d.
Definition live_tool (evs : list Event) (d : string) : string :=
  fold_left (fun v ev => match ev with SetTool w => w | _ => v end) evs d.
Definition live_size (evs : list Event) (d : number) : number :=
  fold_left (fun v ev => match ev with SetBrushSize w => w | _ => v end) evs d.

(** The points a gesture records: the pointer-down position and one point
    per move, relative to the canvas. *)
Definition moved_points (c : Canvas) (evs : list Event) : list Point :=
  omap (fun ev =>
          match ev with
          | PointerMove clientX clientY _ =>
              Some (mkPoint (clientX - cv_left c) (clientY - cv_top c))
          | _ => None
          end) evs.

Definition recorded_points (c : Canvas) (clientX clientY : number)
    (evs : list Event) : list Point :=
  mkPoint (clientX - cv_left c) (clientY - cv_top c) :: moved_points c evs.

(** Is the stroke drawn by a redraw? *)
Definition is_visible (h : Heap) (sk : Stroke) : bool :=
  match visible_points h sk with
  | Some _ => true
  | None => false
  end.

(** [brushed tool color size path op]: [op] strokes [path] with the line
    width [size]; for the eraser in the punch-through compositing mode,
    for any other tool painted over in [color]. *)
Definition brushed (tool color : string) (size : number) (path : list PathCmd)
    (op : Paint) : Prop :=
  match op with
  | StrokePath st path' =>
      path' = path
      /\ lineWidth st = size
      /\ (tool = "eraser" -> globalCompositeOperation st = "destination-out")
      /\ (tool <> "eraser" ->
          globalCompositeOperation st = "source-over" /\ strokeStyle st = color)
  | _ => False
  end.

(** [op] is the paint of the committed stroke [sk]. *)
Definition painted_as (h : Heap) (sk : Stroke) (op : Paint) : Prop :=
  match visible_points h sk with
  | Some pts => brushed (s_tool sk) (s_color sk) (s_size sk) (polyline pts) op
  | None => False
  end.

(** The user id of the first presence record under a connection key. *)
Definition first_id (state : PresenceState) (key : string) : option string :=
  match map_get key state with
  | Some (presence :: _) => Some (user_id presence)
  | _ => None
  end.

(** The user ids a snapshot carries, other than the local participant's,
    in key order and with repetitions. *)
Definition remote_ids (pr : Props) (state : PresenceState) : list string :=
  List.filter (fun u => negb (String.eqb u (userId pr)))
    (omap (first_id state) (map_keys state)).

(** An entry of the cursor map that was built from the first presence
    record of some connection key. *)
Definition from_first_record (state : PresenceState)
    (kv : string * RemoteCursor) : Prop :=
  exists key presence rest,
    key ∈ map_keys state
    /\ map_get key state = Some (presence :: rest)
    /\ kv = (user_id presence, cursor_of_presence presence).

(** A snapshot with the local user U1 and the remote users U2 and U3. *)
Definition demo_presence : PresenceState :=
  [("conn-a", [mkPresence "U1" "Ann" "#22c55e" 1 1 10%Z]);
   ("conn-b", [mkPresence "U2" "Bob" "#3b82f6" 20 30 11%Z]);
   ("conn-c", [mkPresence "U3" "Cy" "#ef4444" 40 50 12%Z;
               mkPresence "U1" "Ann" "#22c55e" 0 0 9%Z])].

(** The stroke colour of a painted path. *)
Definition stroke_colour (op : Paint) : option string :=
  match op with
  | StrokePath st _ => Some (strokeStyle st)
  | _ => None
  end.

(** A board with a pen stroke and an eraser stroke committed, a gesture of
    two points in progress with a blue pen, and one remote cursor. *)
Definition demo_scene : State :=
  mkState
    [mkStroke "s1" (Some 0) "#ff0000" 4 "pen" "U2";
     mkStroke "s2" (Some 1) "#000000" 12 "eraser" "U3"]
    [mkStroke "s1" (Some 0) "#ff0000" 4 "pen" "U2";
     mkStroke "s2" (Some 1) "#000000" 12 "eraser" "U3"]
    [("U2", mkRemoteCursor "U2" "Bob" "#3b82f6" 20 30 11%Z)]
    true (Some 2) "#0000ff" "pen" 6
    [[mkPoint 0 0; mkPoint 10 10; mkPoint 20 5];
     [mkPoint 5 5; mkPoint 15 5];
     [mkPoint 1 2; mkPoint 3 4]]
    (Some demo_canvas) [] [] [].

(** * The rest of the component *)

(** ** [resizeCanvas] (lines 70-88) *)

(** The drawing state of a 2D context whose bitmap was just resized. *)
Definition default_ctx : Ctx2D :=
  mkCtx2D "source-over" "#000000" "#000000" 1 "miter" "butt" "10px sans-serif".

(** [window.devicePixelRatio || 1]. *)
Definition device_pixel_ratio (dpr : number) : number :=
  if Qeq_bool dpr 0 then 1 else dpr.

(** [Math.max(1, Math.floor(css * dpr))]. *)
Definition bitmap_size (css dpr : number) : N :=
  Z.to_N (Z.max 1 (Qfloor (css * dpr))).

(** Where the browser lays the canvas out once its style size is set:
    what [canvas.getBoundingClientRect()] returns from then on. *)
Record Layout : Type := mkLayout {
  lay_left : number;
  lay_top : number;
  lay_width : number;
  lay_height : number
}.

(** The canvas right after lines 78-85: assigning [canvas.width] or
    [canvas.height] clears the bitmap and resets the context (drawing
    state, save stack and current path), and [setTransform] installs the
    scale. [layout] is where the canvas lies from then on. *)
Definition resized_canvas (width height dpr : number) (layout : Layout) : Canvas :=
  mkCanvas (bitmap_size width dpr) (bitmap_size height dpr)
    (lay_left layout) (lay_top layout) (lay_width layout) (lay_height layout)
    dpr default_ctx [] [] [].

(** [container] is the size of [containerRef.current]'s bounding rect, or
    [None] when the container is not mounted. The callback is created once
    ([useCallback] with no dependencies), so the [redrawAll] it calls is
    the one of the first render, whose [remoteCursors] is the initial empty
    map; everything else that [redrawAll] reads is in ref cells. *)
Definition resizeCanvas (container : option (number * number)) (dpr : number)
    (layout : Layout) (s : State) : result State :=
  match canvasRef s, container with
  | Some _, Some (width, height) =>
      let c := resized_canvas width height (device_pixel_ratio dpr) layout in
      try! c <- redraw (set_remoteCursors [] s) c;
      Ok (set_canvasRef (Some c) s)
  | _, _ => Ok s
  end.

(** ** Reading the stroke log back *)

(** The row a stroke stands for: its fields and what its point array
    holds. *)
Definition row_of_stroke (h : Heap) (sk : Stroke) : StrokeRow :=
  mkStrokeRow (s_id sk) (option_map (deref h) (s_points sk)) (s_color sk)
    (s_size sk) (s_tool sk) (s_userId sk).

Definition log_rows (s : State) : list StrokeRow :=
  map (row_of_stroke (heap s)) (strokes s).

(** The row the transport echoes for a stroke committed from [s] with the
    point array at [a], under the id the database gave it. *)
Definition echo_row (id : string) (pr : Props) (a : addr) (s : State) : StrokeRow :=
  mkStrokeRow id (Some (deref (heap s) a)) (currentColorRef s) (brushSizeRef s)
    (currentToolRef s) (userId pr).

(** ** What the component sends out *)

(** A presence record published under the local identity. *)
Definition local_presence (pr : Props) (p : Presence) : Prop :=
  user_id p = userId pr /\ user_name p = userName pr
  /\ user_color p = userColor pr.

(** A submitted row for the local room and identity with at least one
    point. *)
Definition local_row (pr : Props) (r : InsertRow) : Prop :=
  ins_room_id r = roomId pr /\ ins_user_id r = userId pr
  /\ ins_user_name r = userName pr /\ ins_user_color r = userColor pr
  /\ ins_points r <> [].

(** The invariant of a mounted component: the state is well formed, the
    canvas is mounted, the array of a gesture is never empty, and
    everything sent out is under the local identity. *)
Definition Alive (pr : Props) (s : State) : Prop :=
  WF s
  /\ is_Some (canvasRef s)
  /\ (forall a, currentPointsRef s = Some a -> deref (heap s) a <> [])
  /\ Forall (local_presence pr) (tracked s)
  /\ Forall (local_row pr) (inserts s).

Definition is_move (ev : Event) : bool :=
  match ev with
  | PointerMove _ _ _ => true
  | _ => false
  end.

(** ** Presence snapshots *)

(** The first presence record under a connection key. *)
Definition first_record (state : PresenceState) (key : string) : option Presence :=
  match map_get key state with
  | Some (presence :: _) => Some presence
  | _ => None
  end.

(** The first records of the snapshot, in key order, that are not the
    local participant's. *)
Definition remote_records (pr : Props) (state : PresenceState) : list Presence :=
  List.filter (fun p => negb (String.eqb (user_id p) (userId pr)))
    (omap (first_record state) (map_keys state)).

(** ** Reading the display list *)

(** The compositing mode a paint was issued under. *)
Definition paint_mode (op : Paint) : option string :=
  match op with
  | ClearRect _ _ _ _ => None
  | FillRect st _ _ _ _ | StrokePath st _ | FillPath st _ | FillText st _ _ _ =>
      Some (globalCompositeOperation st)
  end.

(** A stroked path has round joins and caps; other paints are not
    concerned. *)
Definition round_stroke (op : Paint) : Prop :=
  match op with
  | StrokePath st _ => lineJoin st = "round" /\ lineCap st = "round"
  | _ => True
  end.

(** The compositing mode the remote cursors are painted under: the
    transient stroke resets it, otherwise it is the one the last drawn
    committed stroke left, or the one the canvas came with. *)
Definition cursor_mode (s : State) (c : Canvas) : string :=
  match pending_points s with
  | Some _ => "source-over"
  | None =>
      match last (List.filter (is_visible (heap s)) (strokesRef s)) with
      | Some sk =>
          if String.eqb (s_tool sk) "eraser" then "destination-out"
          else "source-over"
      | None => globalCompositeOperation (cv_state c)
      end
  end.

(** The layout of the example canvas. *)
Definition demo_layout : Layout := mkLayout 0 0 400 300.

(** More fixtures: the example board after its eraser stroke was drawn
    last and the gesture is over. *)
Definition demo_erased : State :=
  set_currentPointsRef None (set_isDrawingRef false demo_scene).

(** ** Proof automation *)

Ltac simpl_state :=
  cbn [strokes strokesRef remoteCursors isDrawingRef currentPointsRef
       currentColorRef currentToolRef brushSizeRef heap canvasRef inserts
       tracked console set_strokes set_strokesRef set_remoteCursors
       set_isDrawingRef set_currentPointsRef set_currentColorRef
       set_currentToolRef set_brushSizeRef set_heap set_canvasRef set_inserts
       set_tracked set_console] in *.

(** The three parts of [step_effect] for a turn that leaves the stroke log
    and the heap alone. *)
Ltac unchanged HW :=
  split; [exact HW|split; [intros; reflexivity|intros; left; reflexivity]].

(** * Lemmas about the renderer *)

Lemma canvas_eta (c : Canvas) :
  mkCanvas (cv_width c) (cv_height c) (cv_left c) (cv_top c) (cv_rwidth c)
    (cv_rheight c) (cv_scale c) (cv_state c) (cv_stack c) (cv_path c)
    (cv_surface c) = c.
Proof. by destruct c. Qed.

Lemma same_frame_refl (c : Canvas) : same_frame c c.
Proof. by repeat split. Qed.

Lemma same_frame_trans (c1 c2 c3 : Canvas) :
  same_frame c1 c2 -> same_frame c2 c3 -> same_frame c1 c3.
Proof.
  unfold same_frame. intros H12 H23.
  destruct H12 as (?&?&?&?&?&?&?&?), H23 as (?&?&?&?&?&?&?&?).
  repeat split; congruence.
Qed.

Lemma lineTo_fold (l : list Point) (c : Canvas) :
  fold_left (fun c p => lineTo (p_x p) (p_y p) c) l c
  = with_path (cv_path c ++ map (fun p => LineTo (p_x p) (p_y p)) l) c.
Proof.
  revert c. induction l as [|p l IH]; intros c; simpl.
  - rewrite app_nil_r. unfold with_path. by rewrite canvas_eta.
  - rewrite IH. unfold with_path, lineTo, with_path. simpl.
    by rewrite <- app_assoc.
Qed.

Lemma lineTo_rest_cons (p0 : Point) (rest : list Point) (c : Canvas) :
  lineTo_rest (p0 :: rest) c
  = with_path (cv_path c ++ map (fun p => LineTo (p_x p) (p_y p)) rest) c.
Proof. apply lineTo_fold. Qed.

Lemma elem_cons_0 (p0 : Point) (rest : list Point) : elem (p0 :: rest) 0 = Ok p0.
Proof. reflexivity. Qed.

Lemma visible_points_length (h : Heap) (sk : Stroke) (pts : list Point) :
  visible_points h sk = Some pts -> 2 <= length pts.
Proof.
  unfold visible_points. destruct (s_points sk) as [a|]; [|done].
  destruct (Nat.ltb_spec (length (deref h a)) 2); [done|].
  intros [= <-]. lia.
Qed.

Lemma draw_stroke_spec (h : Heap) (sk : Stroke) (c : Canvas) :
  draw_stroke h sk c
  = Ok match visible_points h sk with
       | None => c
       | Some pts =>
           stroked (style_for (s_tool sk) (s_color sk) (s_size sk) (cv_state c))
             (polyline pts) c
       end.
Proof.
  unfold draw_stroke, visible_points.
  destruct (s_points sk) as [a|]; [|done].
  destruct (Nat.ltb_spec (length (deref h a)) 2) as [Hlt|Hge]; [done|].
  destruct (deref h a) as [|p0 rest]; [simpl in Hge; lia|].
  rewrite elem_cons_0. cbn [rbind]. rewrite lineTo_rest_cons.
  unfold style_for, stroked, polyline.
  destruct (String.eqb (s_tool sk) "eraser"); reflexivity.
Qed.

Lemma draw_strokes_spec (h : Heap) (l : list Stroke) (c : Canvas) :
  exists c',
    draw_strokes h l c = Ok c'
    /\ cv_surface c' = cv_surface c ++ fst (committed_paint h l (cv_state c))
    /\ cv_state c' = snd (committed_paint h l (cv_state c))
    /\ same_frame c c'.
Proof.
  revert c. induction l as [|sk l IH]; intros c; simpl.
  - exists c. rewrite app_nil_r. auto using same_frame_refl.
  - rewrite draw_stroke_spec. simpl.
    destruct (visible_points h sk) as [pts|]; [|apply IH].
    destruct (IH (stroked (style_for (s_tool sk) (s_color sk) (s_size sk) (cv_state c))
                    (polyline pts) c)) as (c' & Hrun & Hsurf & Hst & Hfr).
    exists c'. simpl in *. rewrite Hrun, Hsurf, Hst, <- app_assoc.
    repeat split; try done; apply Hfr.
Qed.

Lemma draw_pending_spec (s : State) (c : Canvas) :
  exists c',
    draw_pending s c = Ok c'
    /\ cv_surface c' = cv_surface c ++ fst (pending_paint s (cv_state c))
    /\ cv_state c' = snd (pending_paint s (cv_state c))
    /\ same_frame c c'.
Proof.
  unfold draw_pending, pending_paint, pending_points.
  destruct (currentPointsRef s) as [a|];
    [|exists c; rewrite app_nil_r; auto using same_frame_refl].
  destruct (Nat.leb_spec 2 (length (deref (heap s) a))) as [Hge|Hlt];
    [|exists c; rewrite app_nil_r; auto using same_frame_refl].
  destruct (deref (heap s) a) as [|p0 rest]; [simpl in Hge; lia|].
  rewrite elem_cons_0. cbn [rbind]. rewrite lineTo_rest_cons.
  eexists. split; [reflexivity|]. unfold style_for, source_over. simpl.
  destruct (String.eqb (currentToolRef s) "eraser"); simpl;
    repeat split; reflexivity.
Qed.

Lemma draw_cursors_spec (m : JsMap RemoteCursor) (c : Canvas) :
  cv_surface (draw_cursors m c) = cv_surface c ++ cursor_paint m (cv_state c)
  /\ same_frame c (draw_cursors m c).
Proof.
  unfold draw_cursors. revert c. induction m as [|[k cursor] m IH]; intros c; simpl.
  - rewrite app_nil_r. auto using same_frame_refl.
  - destruct (IH (draw_cursor cursor c)) as [Hsurf Hfr].
    rewrite Hsurf. simpl. rewrite <- !app_assoc. simpl. split; [done|].
    eapply same_frame_trans; [|exact Hfr]. by repeat split.
Qed.

Lemma prelude_spec (c : Canvas) :
  cv_surface (prelude c) = residue c ++ [background_paint c]
  /\ cv_state (prelude c) = scene_state c
  /\ cv_stack (prelude c) = cv_state c :: cv_stack c
  /\ cv_width (prelude c) = cv_width c /\ cv_height (prelude c) = cv_height c
  /\ cv_left (prelude c) = cv_left c /\ cv_top (prelude c) = cv_top c
  /\ cv_rwidth (prelude c) = cv_rwidth c /\ cv_rheight (prelude c) = cv_rheight c
  /\ cv_scale (prelude c) = cv_scale c.
Proof.
  unfold prelude, residue, background_paint, scene_state, clearRect, covers_bitmap.
  simpl.
  destruct (_ && _); simpl; repeat split; reflexivity.
Qed.

(** The master description of a redraw: it cannot throw, it leaves the
    drawing state and the frame as it found them, and the display list is
    the residue of the clear, the background and the foreground. *)
Lemma redraw_spec (s : State) (c : Canvas) :
  exists c',
    redraw s c = Ok c'
    /\ cv_surface c'
       = residue c ++ background_paint c :: foreground (strokesRef s) s c
    /\ cv_state c' = cv_state c
    /\ same_frame c c'.
Proof.
  change (redraw s c) with
    (try! c1 <- draw_strokes (heap s) (strokesRef s) (prelude c);
     try! c2 <- draw_pending s c1;
     Ok (restore (draw_cursors (remoteCursors s) c2))).
  destruct (prelude_spec c) as (S1 & T1 & K1 & W1 & H1 & L1 & P1 & RW1 & RH1 & SC1).
  destruct (draw_strokes_spec (heap s) (strokesRef s) (prelude c))
    as (c2 & H2 & S2 & T2 & F2).
  destruct (draw_pending_spec s c2) as (c3 & H3 & S3 & T3 & F3).
  destruct (draw_cursors_spec (remoteCursors s) c3) as [S4 F4].
  rewrite H2. cbn [rbind]. rewrite H3. cbn [rbind].
  eexists. split; [reflexivity|].
  assert (Hfr : same_frame (prelude c) (draw_cursors (remoteCursors s) c3))
    by eauto using same_frame_trans.
  destruct Hfr as (W & H & L & P & RW & RH & SC & Hstk).
  unfold restore. rewrite Hstk, K1. unfold same_frame, with_stack.
  cbn [cv_width cv_height cv_left cv_top cv_rwidth cv_rheight cv_scale
       cv_state cv_stack cv_path cv_surface].
  split; [|split; [done|]].
  - rewrite S4, S3, S2, T3, T2, S1, T1. unfold foreground.
    rewrite <- !app_assoc. reflexivity.
  - repeat split; congruence.
Qed.

(** * Lemmas about the state *)

Lemma set_canvasRef_id (s : State) : set_canvasRef (canvasRef s) s = s.
Proof. by destruct s. Qed.

Lemma redrawAll_shape (s : State) :
  exists cv, redrawAll s = Ok (set_canvasRef cv s).
Proof.
  unfold redrawAll. destruct (canvasRef s) as [c|] eqn:Hc.
  - destruct (redraw_spec s c) as (c' & Hr & _). rewrite Hr. simpl. eauto.
  - exists None. by rewrite <- Hc, set_canvasRef_id.
Qed.

Lemma redrawAll_mounted (s : State) (c : Canvas) :
  canvasRef s = Some c ->
  exists c',
    redrawAll s = Ok (set_canvasRef (Some c') s)
    /\ cv_surface c'
       = residue c ++ background_paint c :: foreground (strokesRef s) s c
    /\ cv_state c' = cv_state c
    /\ same_frame c c'.
Proof.
  intros Hc. unfold redrawAll. rewrite Hc.
  destruct (redraw_spec s c) as (c' & Hr & Hs & Ht & Hf). rewrite Hr. simpl.
  eauto.
Qed.

Lemma rerender_strokes_shape (s : State) :
  exists cv,
    rerender_strokes s = Ok (set_canvasRef cv (set_strokesRef (strokes s) s)).
Proof. apply redrawAll_shape. Qed.

Lemma rerender_cursors_shape (s : State) :
  exists cv,
    rerender_cursors s = Ok (set_canvasRef cv (set_strokesRef (strokes s) s)).
Proof.
  unfold rerender_cursors.
  destruct (redrawAll_shape (set_strokesRef (strokes s) s)) as [cv1 H1].
  rewrite H1. cbn [rbind].
  destruct (redrawAll_shape (set_canvasRef cv1 (set_strokesRef (strokes s) s)))
    as [cv2 H2].
  rewrite H2. by exists cv2.
Qed.

(** ** The invariant *)

Lemma wf_WF (s : State) : wf s = true <-> WF s.
Proof.
  unfold wf, WF, in_heap.
  rewrite !andb_true_iff, !forallb_forall, !Forall_forall.
  setoid_rewrite Nat.ltb_lt.
  split.
  - intros [[H1 H2] H3]. split; [|split].
    + intros a Ha. apply H1. by apply list_elem_of_In.
    + intros a Ha. apply H2. by apply list_elem_of_In.
    + intros a Ha. rewrite Ha in H3.
      apply andb_true_iff in H3 as [Hlt H3]. apply Nat.ltb_lt in Hlt.
      split; [done|]. intros Hd. rewrite Hd in H3. simpl in H3.
      apply andb_true_iff in H3 as [H4 H5].
      rewrite forallb_forall in H4, H5.
      split; intros Hin%list_elem_of_In.
      * apply H4 in Hin. by rewrite Nat.eqb_refl in Hin.
      * apply H5 in Hin. by rewrite Nat.eqb_refl in Hin.
  - intros (H1 & H2 & H3). split; [split|].
    + intros a Ha. apply H1. by apply list_elem_of_In.
    + intros a Ha. apply H2. by apply list_elem_of_In.
    + destruct (currentPointsRef s) as [a|]; [|done].
      destruct (H3 a eq_refl) as [Hlt Hd].
      apply andb_true_iff. split; [by apply Nat.ltb_lt|].
      destruct (isDrawingRef s); [|done]. simpl.
      destruct (Hd eq_refl) as [N1 N2].
      apply andb_true_iff. split; apply forallb_forall; intros b Hb;
        apply negb_true_iff, Nat.eqb_neq; intros ->;
        [apply N1|apply N2]; by apply list_elem_of_In.
Qed.

Lemma stroke_addrs_snoc (l : list Stroke) (sk : Stroke) :
  stroke_addrs (l ++ [sk])
  = stroke_addrs l ++ match s_points sk with Some a => [a] | None => [] end.
Proof.
  unfold stroke_addrs. rewrite omap_app. simpl. by destruct (s_points sk).
Qed.

Lemma Forall_lt_mono (l : list addr) (n m : nat) :
  n <= m -> Forall (fun a => a < n) l -> Forall (fun a => a < m) l.
Proof.
  intros Hnm HF. eapply Forall_impl; [exact HF|]. intros a Ha. simpl in *. lia.
Qed.

Lemma Forall_lt_not_in (l : list addr) (n : nat) :
  Forall (fun a => a < n) l -> n ∉ l.
Proof.
  intros HF Hin. rewrite Forall_forall in HF. apply HF in Hin. lia.
Qed.

Lemma stroke_addrs_cons (sk : Stroke) (l : list Stroke) :
  stroke_addrs (sk :: l) = stroke_addrs [sk] ++ stroke_addrs l.
Proof. unfold stroke_addrs. simpl. by destruct (s_points sk). Qed.

(** Rows parse into strokes whose arrays are new, and the heap only grows. *)
Lemma stroke_of_row_spec (r : StrokeRow) (h : Heap) :
  exists ext,
    snd (stroke_of_row r h) = h ++ ext
    /\ Forall (fun a => length h <= a < length (h ++ ext))
         (stroke_addrs [fst (stroke_of_row r h)]).
Proof.
  unfold stroke_of_row. destruct (row_points r) as [pts|]; simpl.
  - exists [pts]. split; [done|]. constructor; [|done].
    rewrite length_app. simpl. lia.
  - exists []. by rewrite app_nil_r.
Qed.

Lemma strokes_of_rows_spec (rows : list StrokeRow) (h : Heap) :
  exists ext,
    snd (strokes_of_rows rows h) = h ++ ext
    /\ Forall (fun a => length h <= a < length (h ++ ext))
         (stroke_addrs (fst (strokes_of_rows rows h))).
Proof.
  revert h. induction rows as [|r rows IH]; intros h; simpl.
  - exists []. by rewrite app_nil_r.
  - destruct (stroke_of_row_spec r h) as (e1 & He1 & Ha1).
    destruct (stroke_of_row r h) as [sk h1]. simpl in *. subst h1.
    destruct (IH (h ++ e1)) as (e2 & He2 & Ha2).
    destruct (strokes_of_rows rows (h ++ e1)) as [sks h2]. simpl in *. subst h2.
    exists (e1 ++ e2). rewrite app_assoc. split; [done|].
    assert (Htl : Forall (fun a => length h <= a < length ((h ++ e1) ++ e2))
                    (stroke_addrs sks)).
    { eapply Forall_impl; [exact Ha2|]. intros a. simpl.
      rewrite !length_app. lia. }
    destruct (s_points sk) as [a|]; [|done].
    constructor; [|done]. apply Forall_inv in Ha1.
    rewrite !length_app in *. lia.
Qed.

Lemma deref_app (h ext : Heap) (a : addr) :
  a < length h -> deref (h ++ ext) a = deref h a.
Proof. intros Ha. unfold deref. by rewrite lookup_app_l. Qed.

Lemma deref_push_ne (h : Heap) (a b : addr) (pt : Point) :
  a <> b -> deref (push b pt h) a = deref h a.
Proof. intros Hab. unfold deref, push. by rewrite list_lookup_insert_ne. Qed.

Lemma deref_push_eq (h : Heap) (a : addr) (pt : Point) :
  a < length h -> deref (push a pt h) a = deref h a ++ [pt].
Proof. intros Ha. unfold deref at 1, push. by rewrite list_lookup_insert_eq. Qed.

Lemma length_push (h : Heap) (a : addr) (pt : Point) :
  length (push a pt h) = length h.
Proof. apply length_insert. Qed.

Lemma drawSegment_shape (from : option Point) (to : Point) (s s' : State) :
  drawSegment from to s = Ok s' -> exists cv, s' = set_canvasRef cv s.
Proof.
  unfold drawSegment. destruct (canvasRef s) as [c|] eqn:Hc.
  - destruct from as [from|]; [|done]. intros [= <-]. eauto.
  - intros [= <-]. exists None. by rewrite <- Hc, set_canvasRef_id.
Qed.

(** What one turn of the event loop does to the stroke log and the heap:
    the invariant is kept, the arrays of committed strokes keep their
    contents, and unless the event replaces the list, the list is kept as
    a prefix and grows by at most one stroke. *)
Lemma step_effect (pr : Props) (ev : Event) (s s' : State) :
  WF s -> step pr ev s = Ok s' ->
  WF s'
  /\ (forall a, a ∈ stroke_addrs (strokes s) ->
        deref (heap s') a = deref (heap s) a)
  /\ (keeps_log ev = true ->
        strokes s' = strokes s \/ exists sk, strokes s' = strokes s ++ [sk]).
Proof.
  intros HW Hstep. pose proof HW as (W1 & W2 & W3).
  assert (Hin : forall a, a ∈ stroke_addrs (strokes s) -> a < length (heap s)).
  { intros a Ha. rewrite Forall_forall in W1. by apply W1. }
  destruct ev as [button cx cy|cx cy now|now|error|payload| |state|data error|v|v|v];
    simpl in Hstep.
  - (* pointer down *)
    unfold handlePointerDown, getPointFromEvent in Hstep.
    destruct (match button with Some b => negb (b =? 0)%Z | None => false end).
    { injection Hstep as <-. unchanged HW. }
    simpl_state. destruct (canvasRef s) as [c|]; [|done].
    simpl in Hstep. injection Hstep as <-. unfold WF. simpl_state.
    rewrite length_app. simpl.
    split; [split; [|split]|split].
    + eapply Forall_lt_mono; [|exact W1]. lia.
    + eapply Forall_lt_mono; [|exact W2]. lia.
    + intros a [= <-]. split; [lia|]. intros _.
      split; by apply Forall_lt_not_in.
    + intros a Ha. apply deref_app. auto.
    + auto.
  - (* pointer move *)
    unfold handlePointerMove, getPointFromEvent in Hstep.
    destruct (canvasRef s) as [c|] eqn:Hc; [|done].
    cbn [rbind] in Hstep. simpl_state.
    destruct (isDrawingRef s) eqn:Hd; simpl in Hstep.
    2:{ injection Hstep as <-. unchanged HW. }
    destruct (currentPointsRef s) as [a|] eqn:Ha.
    2:{ injection Hstep as <-. unchanged HW. }
    apply drawSegment_shape in Hstep as [cv ->]. unfold WF. simpl_state.
    rewrite length_push, Ha, Hd.
    destruct (W3 a eq_refl) as [Hlt Hno]. destruct (Hno eq_refl) as [N1 N2].
    split; [done|split; [|by left]].
    intros b Hb. apply deref_push_ne. intros ->. by apply N1.
  - (* pointer up *)
    unfold handlePointerUp, commitStroke in Hstep.
    destruct (isDrawingRef s) eqn:Hd; simpl in Hstep.
    2:{ injection Hstep as <-. unchanged HW. }
    simpl_state.
    destruct (currentPointsRef s) as [a|] eqn:Ha.
    2:{ injection Hstep as <-. unfold WF. simpl_state. rewrite Ha.
        split; [done|split; [done|by left]]. }
    destruct (length (deref (heap s) a) =? 0)%nat.
    { injection Hstep as <-. unfold WF. simpl_state. rewrite Ha.
      split; [|split; [done|by left]]. split; [done|split; [done|]].
      intros b [= <-]. split; [by apply W3|done]. }
    match type of Hstep with rerender_strokes ?t = _ =>
      destruct (rerender_strokes_shape t) as [cv Hr] end.
    rewrite Hr in Hstep. injection Hstep as <-. unfold WF. simpl_state.
    rewrite Ha, stroke_addrs_snoc. simpl.
    destruct (W3 a eq_refl) as [Hlt _].
    assert (Forall (fun a => a < length (heap s)) (stroke_addrs (strokes s) ++ [a])).
    { apply Forall_app. split; [done|]. by constructor. }
    split; [|split; [done|by eauto]]. split; [done|split; [done|]].
    intros b [= <-]. split; [done|done].
  - (* the insert settled *)
    injection Hstep as <-. unfold commitStroke_resume, WF.
    destruct error; simpl_state; (split; [done|split; [done|by left]]).
  - (* remote insert *)
    unfold onInsert in Hstep.
    destruct (stroke_of_row_spec payload (heap s)) as (ext & Hext & Haddr).
    destruct (stroke_of_row payload (heap s)) as [newStroke h] eqn:Hrow.
    simpl in Hext, Haddr. subst h.
    match type of Hstep with rerender_strokes ?t = _ =>
      destruct (rerender_strokes_shape t) as [cv Hr] end.
    rewrite Hr in Hstep. injection Hstep as <-. unfold WF. simpl_state.
    rewrite stroke_addrs_snoc.
    assert (Hnew : Forall (fun a => length (heap s) <= a < length (heap s ++ ext))
                     match s_points newStroke with Some a => [a] | None => [] end).
    { unfold stroke_addrs in Haddr. simpl in Haddr.
      by destruct (s_points newStroke). }
    assert (Hle : length (heap s) <= length (heap s ++ ext))
      by (rewrite length_app; lia).
    assert (Hall : Forall (fun a => a < length (heap s ++ ext))
              (stroke_addrs (strokes s) ++
                 match s_points newStroke with Some a => [a] | None => [] end)).
    { apply Forall_app. split.
      - eapply Forall_lt_mono; [exact Hle|exact W1].
      - eapply Forall_impl; [exact Hnew|]. intros a. simpl. lia. }
    split; [split; [done|split; [done|]]|split].
    + intros a Ha. destruct (W3 a Ha) as [Hlt Hno]. split; [lia|].
      intros Hd. destruct (Hno Hd) as [N1 N2].
      assert (a ∉ stroke_addrs (strokes s) ++
                match s_points newStroke with Some a => [a] | None => [] end).
      { rewrite elem_of_app. intros [Hi|Hi]; [by apply N1|].
        rewrite Forall_forall in Hnew. apply Hnew in Hi. lia. }
      done.
    + intros a Ha. apply deref_app. auto.
    + eauto.
  - (* remote delete *)
    unfold onDelete in Hstep.
    match type of Hstep with rerender_strokes ?t = _ =>
      destruct (rerender_strokes_shape t) as [cv Hr] end.
    rewrite Hr in Hstep. injection Hstep as <-. unfold WF. simpl_state.
    split; [|split; [done|done]]. split; [constructor|split; [constructor|]].
    intros a Ha. split; [by apply W3|]. intros _. unfold stroke_addrs. simpl.
    split; apply not_elem_of_nil.
  - (* presence sync *)
    unfold onPresenceSync in Hstep.
    match type of Hstep with rerender_cursors ?t = _ =>
      destruct (rerender_cursors_shape t) as [cv Hr] end.
    rewrite Hr in Hstep. injection Hstep as <-. unfold WF. simpl_state.
    split; [|split; [done|by left]]. split; [done|split; [done|]].
    intros a Ha. destruct (W3 a Ha) as [Hlt Hno]. split; [done|].
    intros Hd. destruct (Hno Hd). done.
  - (* the load settled *)
    unfold loadStrokes_resume in Hstep.
    destruct error as [e|].
    { injection Hstep as <-. split; [exact HW|split; [done|done]]. }
    destruct data as [rows|].
    + destruct (strokes_of_rows_spec rows (heap s)) as (ext & Hext & Haddr).
      destruct (strokes_of_rows rows (heap s)) as [parsed h] eqn:Hrows.
      simpl in Hext, Haddr. subst h.
      match type of Hstep with rerender_strokes ?t = _ =>
        destruct (rerender_strokes_shape t) as [cv Hr] end.
      rewrite Hr in Hstep. injection Hstep as <-. unfold WF. simpl_state.
      assert (Hall : Forall (fun a => a < length (heap s ++ ext)) (stroke_addrs parsed)).
      { eapply Forall_impl; [exact Haddr|]. intros a. simpl. lia. }
      split; [split; [done|split; [done|]]|split; [|done]].
      * intros a Ha. destruct (W3 a Ha) as [Hlt _].
        split; [rewrite length_app; lia|]. intros _.
        assert (a ∉ stroke_addrs parsed).
        { intros Hi. rewrite Forall_forall in Haddr. apply Haddr in Hi. lia. }
        done.
      * intros a Ha. apply deref_app. auto.
    + match type of Hstep with rerender_strokes ?t = _ =>
        destruct (rerender_strokes_shape t) as [cv Hr] end.
      rewrite Hr in Hstep. injection Hstep as <-. unfold WF. simpl_state.
      split; [|split; [done|done]]. split; [constructor|split; [constructor|]].
      intros a Ha. split; [by apply W3|]. intros _. unfold stroke_addrs. simpl.
      split; apply not_elem_of_nil.
  - injection Hstep as <-. unchanged HW.
  - injection Hstep as <-. unchanged HW.
  - injection Hstep as <-. unchanged HW.
Qed.

(** ** The paint of the committed list *)

Lemma visible_points_ext (h h' : Heap) (sk : Stroke) :
  (forall a, s_points sk = Some a -> deref h' a = deref h a) ->
  visible_points h' sk = visible_points h sk.
Proof.
  unfold visible_points. intros H. destruct (s_points sk) as [a|]; [|done].
  by rewrite (H a eq_refl).
Qed.

Lemma committed_paint_ext (h h' : Heap) (l : list Stroke) (st : Ctx2D) :
  (forall a, a ∈ stroke_addrs l -> deref h' a = deref h a) ->
  committed_paint h' l st = committed_paint h l st.
Proof.
  revert st. induction l as [|sk l IH]; intros st H; [done|]. simpl.
  rewrite stroke_addrs_cons in H.
  rewrite (visible_points_ext h h' sk).
  - destruct (visible_points h sk); rewrite IH; try done;
      intros a Ha; apply H, elem_of_app; by right.
  - intros a Ha. apply H, elem_of_app. left. unfold stroke_addrs. simpl.
    rewrite Ha. by left.
Qed.

Lemma committed_paint_snoc_hidden (h : Heap) (l : list Stroke) (sk : Stroke)
    (st : Ctx2D) :
  visible_points h sk = None ->
  committed_paint h (l ++ [sk]) st = committed_paint h l st.
Proof.
  intros Hsk. revert st. induction l as [|sk' l IH]; intros st; simpl.
  - by rewrite Hsk.
  - destruct (visible_points h sk'); by rewrite IH.
Qed.

Lemma redrawAll_unmounted (s : State) :
  canvasRef s = None -> redrawAll s = Ok s.
Proof. intros H. unfold redrawAll. by rewrite H. Qed.

(** A redraw never throws. *)
Lemma redrawAll_succeeds (s : State) : succeeds (redrawAll s).
Proof. destruct (redrawAll_shape s) as [cv H]. by eexists. Qed.

(** ** C2 *)

(** C2. A remote Insert whose stroke has no point array or fewer than two
    points does not change what is rendered: the handler appends the stroke
    to the committed list, the redraw that follows does not throw, and it
    paints exactly what a redraw of the list without that stroke paints,
    because the renderer skips strokes with fewer than two points. *)
Theorem C2_short_remote_stroke_is_skipped (payload : StrokeRow) (s : State) :
  wf s = true -> short_row payload = true ->
  exists s1 s2,
    onInsert payload s = Ok s1
    /\ rerender_strokes s = Ok s2
    /\ length (strokes s1) = S (length (strokes s))
    /\ screen s1 = screen s2.
Proof.
  intros Hwf Hshort. apply wf_WF in Hwf as (W1 & W2 & W3).
  unfold onInsert, rerender_strokes.
  destruct (stroke_of_row_spec payload (heap s)) as (ext & Hext & _).
  assert (Hvis : visible_points (snd (stroke_of_row payload (heap s)))
                   (fst (stroke_of_row payload (heap s))) = None).
  { unfold stroke_of_row, short_row, visible_points, deref, alloc in *.
    destruct (row_points payload) as [pts|]; simpl; [|done].
    rewrite lookup_app_r, Nat.sub_diag by lia. simpl. by rewrite Hshort. }
  destruct (stroke_of_row payload (heap s)) as [newStroke h].
  simpl in Hext, Hvis. subst h. simpl_state.
  destruct (canvasRef s) as [c|] eqn:Hc.
  - match goal with |- context [redrawAll ?t = Ok _ /\ redrawAll ?u = Ok _ /\ _] =>
      destruct (redrawAll_mounted t c Hc) as (c1 & R1 & S1 & _);
      destruct (redrawAll_mounted u c Hc) as (c2 & R2 & S2 & _)
    end.
    do 2 eexists. split; [exact R1|]. split; [exact R2|].
    unfold screen. simpl_state. rewrite length_app. simpl.
    split; [lia|]. rewrite S1, S2. do 2 f_equal.
    unfold foreground, pending_paint, pending_points. simpl_state.
    rewrite committed_paint_snoc_hidden by done.
    rewrite (committed_paint_ext (heap s)).
    2:{ intros a Ha. apply deref_app. rewrite Forall_forall in W1. by apply W1. }
    destruct (currentPointsRef s) as [a|]; [|done].
    destruct (W3 a eq_refl) as [Hlt _]. by rewrite deref_app.
  - do 2 eexists. rewrite !redrawAll_unmounted by done.
    split; [done|]. split; [done|]. unfold screen. simpl_state.
    rewrite Hc, length_app. simpl. split; [lia|done].
Qed.

Lemma C2_witness :
  wf demo_state = true
  /\ short_row (mkStrokeRow "r1" (Some [mkPoint 3 4]) "#00ff00" 2 "pen" "U2") = true
  /\ exists s1 s2,
       onInsert (mkStrokeRow "r1" (Some [mkPoint 3 4]) "#00ff00" 2 "pen" "U2")
         demo_state = Ok s1
       /\ rerender_strokes demo_state = Ok s2
       /\ length (strokes s1) = S (length (strokes demo_state))
       /\ screen s1 = screen s2.
Proof.
  split; [reflexivity|]. split; [reflexivity|].
  apply C2_short_remote_stroke_is_skipped; reflexivity.
Defined.

(** ** C1, C3: finalizing a gesture *)

Lemma commitStroke_commits (pr : Props) (now : Z) (s : State) (a : addr) :
  currentPointsRef s = Some a -> deref (heap s) a <> [] ->
  exists cv,
    commitStroke pr now s
    = Ok (set_canvasRef cv
            (set_inserts (inserts s ++ [insert_row pr a s])
               (set_strokes (strokes s ++ [local_stroke pr now a s])
                  (set_strokesRef (strokes s ++ [local_stroke pr now a s]) s)))).
Proof.
  intros Ha Hne. unfold commitStroke. rewrite Ha.
  destruct (deref (heap s) a) as [|p0 rest] eqn:Hd; [done|]. simpl.
  match goal with |- context [rerender_strokes ?t] =>
    destruct (rerender_strokes_shape t) as [cv Hr] end.
  exists cv. rewrite Hr. unfold insert_row, local_stroke. simpl_state.
  by rewrite Hd.
Qed.

(** C1, as the code has it. A gesture whose point list is absent
    ([currentPointsRef] is [null]) or empty is discarded on pointer-up: the
    committed list and the rows submitted to the persistence port are
    unchanged. *)
Theorem C1_empty_gesture_is_discarded (pr : Props) (now : Z) (s : State) :
  gesture_points s = [] ->
  exists s',
    handlePointerUp pr now s = Ok s'
    /\ strokes s' = strokes s
    /\ strokesRef s' = strokesRef s
    /\ inserts s' = inserts s.
Proof.
  unfold gesture_points, handlePointerUp, commitStroke. intros Hg.
  destruct (isDrawingRef s); simpl; [|by exists s]. simpl_state.
  destruct (currentPointsRef s) as [a|]; [rewrite Hg; simpl|]; by eexists.
Qed.

(** A pointer-up that finds [currentPointsRef] reset: the first gesture's
    insert settles after the second gesture has started. *)
Lemma C1_witness :
  gesture_points
    (demo_after [PointerDown (Some 0%Z) 5 7; PointerMove 6 8 1%Z; PointerUp 2%Z;
                 PointerDown (Some 0%Z) 9 9; InsertSettled None]) = []
  /\ exists s',
       handlePointerUp demo_props 3%Z
         (demo_after [PointerDown (Some 0%Z) 5 7; PointerMove 6 8 1%Z;
                      PointerUp 2%Z; PointerDown (Some 0%Z) 9 9;
                      InsertSettled None]) = Ok s'
       /\ strokes s'
          = strokes (demo_after [PointerDown (Some 0%Z) 5 7; PointerMove 6 8 1%Z;
                                 PointerUp 2%Z; PointerDown (Some 0%Z) 9 9;
                                 InsertSettled None])
       /\ strokesRef s'
          = strokesRef (demo_after [PointerDown (Some 0%Z) 5 7; PointerMove 6 8 1%Z;
                                    PointerUp 2%Z; PointerDown (Some 0%Z) 9 9;
                                    InsertSettled None])
       /\ inserts s'
          = inserts (demo_after [PointerDown (Some 0%Z) 5 7; PointerMove 6 8 1%Z;
                                 PointerUp 2%Z; PointerDown (Some 0%Z) 9 9;
                                 InsertSettled None]).
Proof.
  split; [vm_compute; reflexivity|].
  apply C1_empty_gesture_is_discarded. vm_compute; reflexivity.
Defined.

(** C1, as stated, fails: a press and release without a move records one
    point, and the pointer-up appends a one-point stroke to the committed
    list and submits it to the persistence port. *)
Lemma C1_one_point_gesture_is_committed :
  handlePointerDown (Some 0%Z) 5 7 demo_state
  = Ok (demo_after [PointerDown (Some 0%Z) 5 7])
  /\ length (gesture_points (demo_after [PointerDown (Some 0%Z) 5 7])) = 1
  /\ handlePointerUp demo_props 17%Z (demo_after [PointerDown (Some 0%Z) 5 7])
     = Ok (demo_after [PointerDown (Some 0%Z) 5 7; PointerUp 17%Z])
  /\ strokes (demo_after [PointerDown (Some 0%Z) 5 7]) = []
  /\ strokes (demo_after [PointerDown (Some 0%Z) 5 7; PointerUp 17%Z])
     = [mkStroke "local-17" (Some 0) "#ff0000" 4 "pen" "U1"]
  /\ inserts (demo_after [PointerDown (Some 0%Z) 5 7]) = []
  /\ inserts (demo_after [PointerDown (Some 0%Z) 5 7; PointerUp 17%Z])
     = [mkInsertRow "R1" "U1" "Ann" "#22c55e" [mkPoint 5 7] "#ff0000" 4 "pen"].
Proof. repeat (split; [vm_compute; reflexivity|]). vm_compute; reflexivity. Qed.

(** C3. [commitStroke] appends the finished stroke to the committed list
    and issues the insert before anything is awaited; when the insert
    settles, with or without an error, the committed list is left as it
    is, whatever happened in between, and a failure is only logged. *)
Theorem C3_optimistic_append_is_not_rolled_back (pr : Props) (now : Z)
    (s : State) (a : addr) :
  currentPointsRef s = Some a -> deref (heap s) a <> [] ->
  exists s1,
    commitStroke pr now s = Ok s1
    /\ strokes s1 = strokes s ++ [local_stroke pr now a s]
    /\ inserts s1 = inserts s ++ [insert_row pr a s]
    /\ (forall error, strokes (commitStroke_resume error s1) = strokes s1)
    /\ (forall error t,
          strokes (commitStroke_resume error t) = strokes t
          /\ strokesRef (commitStroke_resume error t) = strokesRef t)
    /\ (forall e t,
          console (commitStroke_resume (Some e) t)
          = console t ++ ["Error saving stroke: " +:+ e]).
Proof.
  intros Ha Hne. destruct (commitStroke_commits pr now s a Ha Hne) as [cv Hc].
  eexists. split; [exact Hc|]. simpl_state.
  repeat split; try reflexivity; unfold commitStroke_resume;
    try destruct error; reflexivity.
Qed.

Lemma C3_witness :
  currentPointsRef (demo_after [PointerDown (Some 0%Z) 5 7; PointerMove 6 8 1%Z])
  = Some 0
  /\ deref (heap (demo_after [PointerDown (Some 0%Z) 5 7; PointerMove 6 8 1%Z])) 0
     <> []
  /\ exists s1,
       commitStroke demo_props 2%Z
         (demo_after [PointerDown (Some 0%Z) 5 7; PointerMove 6 8 1%Z]) = Ok s1
       /\ strokes s1
          = strokes (demo_after [PointerDown (Some 0%Z) 5 7; PointerMove 6 8 1%Z])
            ++ [local_stroke demo_props 2%Z 0
                  (demo_after [PointerDown (Some 0%Z) 5 7; PointerMove 6 8 1%Z])]
       /\ inserts s1
          = inserts (demo_after [PointerDown (Some 0%Z) 5 7; PointerMove 6 8 1%Z])
            ++ [insert_row demo_props 0
                  (demo_after [PointerDown (Some 0%Z) 5 7; PointerMove 6 8 1%Z])]
       /\ (forall error, strokes (commitStroke_resume error s1) = strokes s1)
       /\ (forall error t,
             strokes (commitStroke_resume error t) = strokes t
             /\ strokesRef (commitStroke_resume error t) = strokesRef t)
       /\ (forall e t,
             console (commitStroke_resume (Some e) t)
             = console t ++ ["Error saving stroke: " +:+ e]).
Proof.
  assert (H1 : currentPointsRef
                 (demo_after [PointerDown (Some 0%Z) 5 7; PointerMove 6 8 1%Z])
               = Some 0) by (vm_compute; reflexivity).
  assert (H2 : deref (heap (demo_after [PointerDown (Some 0%Z) 5 7;
                                        PointerMove 6 8 1%Z])) 0 <> [])
    by (vm_compute; discriminate).
  split; [exact H1|]. split; [exact H2|].
  exact (C3_optimistic_append_is_not_rolled_back demo_props 2%Z _ 0 H1 H2).
Defined.

(** ** C5: a whole gesture *)

Lemma run_app (pr : Props) (l1 l2 : list Event) (s : State) :
  run pr (l1 ++ l2) s = (try! s' <- run pr l1 s; run pr l2 s').
Proof.
  revert s. induction l1 as [|ev l1 IH]; intros s; simpl; [done|].
  destruct (step pr ev s); simpl; [apply IH|done].
Qed.

Lemma live_color_cons (ev : Event) (evs : list Event) (d : string) :
  live_color (ev :: evs) d
  = live_color evs (match ev with SetColor w => w | _ => d end).
Proof. reflexivity. Qed.

Lemma live_tool_cons (ev : Event) (evs : list Event) (d : string) :
  live_tool (ev :: evs) d
  = live_tool evs (match ev with SetTool w => w | _ => d end).
Proof. reflexivity. Qed.

Lemma live_size_cons (ev : Event) (evs : list Event) (d : number) :
  live_size (ev :: evs) d
  = live_size evs (match ev with SetBrushSize w => w | _ => d end).
Proof. reflexivity. Qed.

(** A move while capturing: the point is pushed on the gesture's array and
    only the canvas paint changes besides. *)
Lemma handlePointerMove_capturing (pr : Props) (cx cy : number) (now : Z)
    (s : State) (c : Canvas) (a : addr) :
  canvasRef s = Some c -> isDrawingRef s = true ->
  currentPointsRef s = Some a -> deref (heap s) a <> [] ->
  exists c',
    handlePointerMove pr cx cy now s
    = Ok (set_canvasRef (Some c')
            (set_heap (push a (mkPoint (cx - cv_left c) (cy - cv_top c)) (heap s))
               (set_tracked
                  (tracked s ++
                     [mkPresence (userId pr) (userName pr) (userColor pr)
                        (cx - cv_left c) (cy - cv_top c) now]) s)))
    /\ cv_left c' = cv_left c /\ cv_top c' = cv_top c.
Proof.
  intros Hc Hd Ha Hne. unfold handlePointerMove, getPointFromEvent.
  rewrite Hc. cbn [rbind]. simpl_state. rewrite Hd, Ha. simpl.
  destruct (last (deref (heap s) a)) as [prev|] eqn:Hl.
  2:{ by apply last_None in Hl. }
  unfold drawSegment. simpl_state. rewrite Hc.
  eexists. split; [reflexivity|].
  destruct (String.eqb (currentToolRef s) "eraser"); split; reflexivity.
Qed.

Lemma mid_gesture_run (pr : Props) (evs : list Event) :
  forall (s : State) (c : Canvas) (a : addr),
    forallb mid_gesture evs = true ->
    canvasRef s = Some c -> isDrawingRef s = true ->
    currentPointsRef s = Some a -> a < length (heap s) ->
    deref (heap s) a <> [] ->
    exists s',
      run pr evs s = Ok s'
      /\ isDrawingRef s' = true
      /\ currentPointsRef s' = Some a
      /\ deref (heap s') a = deref (heap s) a ++ moved_points c evs
      /\ strokes s' = strokes s
      /\ inserts s' = inserts s
      /\ currentColorRef s' = live_color evs (currentColorRef s)
      /\ currentToolRef s' = live_tool evs (currentToolRef s)
      /\ brushSizeRef s' = live_size evs (brushSizeRef s).
Proof.
  induction evs as [|ev evs IH]; intros s c a Hmid Hc Hd Ha Hlt Hne.
  - exists s. simpl. rewrite app_nil_r. by repeat split.
  - simpl in Hmid. apply andb_true_iff in Hmid as [Hev Hmid].
    rewrite live_color_cons, live_tool_cons, live_size_cons.
    destruct ev as [| cx cy now | | | | | | | v | v | v]; try discriminate Hev;
      cbn [run step rbind].
    + destruct (handlePointerMove_capturing pr cx cy now s c a Hc Hd Ha Hne)
        as (c' & Hm & Hl & Ht).
      rewrite Hm. cbn [rbind].
      match goal with |- context [run pr evs ?t] =>
        destruct (IH t c' a Hmid) as (s' & Hr & H1 & H2 & H3 & H4 & H5 & H6 & H7 & H8)
      end; simpl_state; try done.
      * by rewrite length_push.
      * rewrite deref_push_eq by done. by destruct (deref (heap s) a).
      * exists s'. split; [done|]. simpl_state.
        rewrite deref_push_eq in H3 by done.
        repeat split; try done.
        rewrite H3, <- app_assoc. unfold moved_points. simpl.
        by rewrite Hl, Ht.
    + destruct (IH (set_currentColorRef v s) c a Hmid)
        as (s' & Hr & H1 & H2 & H3 & H4 & H5 & H6 & H7 & H8); try done.
      exists s'. by repeat split.
    + destruct (IH (set_currentToolRef v s) c a Hmid)
        as (s' & Hr & H1 & H2 & H3 & H4 & H5 & H6 & H7 & H8); try done.
      exists s'. by repeat split.
    + destruct (IH (set_brushSizeRef v s) c a Hmid)
        as (s' & Hr & H1 & H2 & H3 & H4 & H5 & H6 & H7 & H8); try done.
      exists s'. by repeat split.
Qed.

(** C5. For a whole gesture on a mounted canvas (a primary-button
    pointer-down, any moves and changes of colour, tool and size, and the
    pointer-up) exactly one stroke is appended to the committed list and
    one row is submitted, both with every recorded point and with the
    colour, tool and size that were set last before the pointer-up; the
    values at the pointer-down are used only if they were never changed. *)
Theorem C5_commit_takes_live_values (pr : Props) (s0 : State) (c : Canvas)
    (clientX clientY : number) (evs : list Event) (now : Z) :
  canvasRef s0 = Some c -> forallb mid_gesture evs = true ->
  exists s2 a,
    run pr (PointerDown (Some 0%Z) clientX clientY :: evs ++ [PointerUp now]) s0
    = Ok s2
    /\ strokes s2
       = strokes s0
         ++ [mkStroke ("local-" +:+ pretty now) (Some a)
               (live_color evs (currentColorRef s0))
               (live_size evs (brushSizeRef s0))
               (live_tool evs (currentToolRef s0)) (userId pr)]
    /\ inserts s2
       = inserts s0
         ++ [mkInsertRow (roomId pr) (userId pr) (userName pr) (userColor pr)
               (recorded_points c clientX clientY evs)
               (live_color evs (currentColorRef s0))
               (live_size evs (brushSizeRef s0))
               (live_tool evs (currentToolRef s0))]
    /\ deref (heap s2) a = recorded_points c clientX clientY evs.
Proof.
  intros Hc Hmid. cbn [run step]. unfold handlePointerDown, getPointFromEvent.
  simpl_state. rewrite Hc. cbn [rbind negb Z.eqb alloc]. rewrite run_app.
  match goal with |- context [run pr evs ?t] =>
    destruct (mid_gesture_run pr evs t c (length (heap s0)) Hmid)
      as (s1 & Hr & H1 & H2 & H3 & H4 & H5 & H6 & H7 & H8)
  end; simpl_state; try done.
  { rewrite length_app. simpl. lia. }
  { unfold deref. by rewrite lookup_app_r, Nat.sub_diag by lia. }
  rewrite Hr. cbn [rbind run step]. unfold handlePointerUp. rewrite H1. simpl.
  assert (Hd : deref (heap s1) (length (heap s0))
               = recorded_points c clientX clientY evs).
  { rewrite H3. unfold deref. by rewrite lookup_app_r, Nat.sub_diag by lia. }
  destruct (commitStroke_commits pr now (set_isDrawingRef false s1)
              (length (heap s0))) as [cv Hcommit]; simpl_state; try done.
  { by rewrite Hd. }
  rewrite Hcommit. cbn [rbind].
  exists (set_canvasRef cv
            (set_inserts (inserts (set_isDrawingRef false s1)
                            ++ [insert_row pr (length (heap s0)) (set_isDrawingRef false s1)])
               (set_strokes (strokes (set_isDrawingRef false s1)
                               ++ [local_stroke pr now (length (heap s0)) (set_isDrawingRef false s1)])
                  (set_strokesRef (strokes (set_isDrawingRef false s1)
                               ++ [local_stroke pr now (length (heap s0)) (set_isDrawingRef false s1)])
                     (set_isDrawingRef false s1))))), (length (heap s0)).
  split; [done|]. unfold local_stroke, insert_row. simpl_state.
  by rewrite H4, H5, H6, H7, H8, Hd.
Qed.

Lemma C5_witness :
  canvasRef demo_state = Some demo_canvas
  /\ forallb mid_gesture
       [PointerMove 10 10 1%Z; SetColor "#0000ff"; PointerMove 20 5 2%Z] = true
  /\ exists s2 a,
       run demo_props
         (PointerDown (Some 0%Z) 0 0
            :: [PointerMove 10 10 1%Z; SetColor "#0000ff"; PointerMove 20 5 2%Z]
            ++ [PointerUp 17%Z]) demo_state
       = Ok s2
       /\ strokes s2
          = strokes demo_state
            ++ [mkStroke ("local-" +:+ pretty 17%Z) (Some a)
                  (live_color
                     [PointerMove 10 10 1%Z; SetColor "#0000ff"; PointerMove 20 5 2%Z]
                     (currentColorRef demo_state))
                  (live_size
                     [PointerMove 10 10 1%Z; SetColor "#0000ff"; PointerMove 20 5 2%Z]
                     (brushSizeRef demo_state))
                  (live_tool
                     [PointerMove 10 10 1%Z; SetColor "#0000ff"; PointerMove 20 5 2%Z]
                     (currentToolRef demo_state)) (userId demo_props)]
       /\ inserts s2
          = inserts demo_state
            ++ [mkInsertRow (roomId demo_props) (userId demo_props)
                  (userName demo_props) (userColor demo_props)
                  (recorded_points demo_canvas 0 0
                     [PointerMove 10 10 1%Z; SetColor "#0000ff"; PointerMove 20 5 2%Z])
                  (live_color
                     [PointerMove 10 10 1%Z; SetColor "#0000ff"; PointerMove 20 5 2%Z]
                     (currentColorRef demo_state))
                  (live_size
                     [PointerMove 10 10 1%Z; SetColor "#0000ff"; PointerMove 20 5 2%Z]
                     (brushSizeRef demo_state))
                  (live_tool
                     [PointerMove 10 10 1%Z; SetColor "#0000ff"; PointerMove 20 5 2%Z]
                     (currentToolRef demo_state))]
       /\ deref (heap s2) a
          = recorded_points demo_canvas 0 0
              [PointerMove 10 10 1%Z; SetColor "#0000ff"; PointerMove 20 5 2%Z].
Proof.
  assert (H1 : canvasRef demo_state = Some demo_canvas) by reflexivity.
  assert (H2 : forallb mid_gesture
                 [PointerMove 10 10 1%Z; SetColor "#0000ff"; PointerMove 20 5 2%Z]
               = true) by reflexivity.
  split; [exact H1|]. split; [exact H2|].
  exact (C5_commit_takes_live_values demo_props demo_state demo_canvas 0 0
           [PointerMove 10 10 1%Z; SetColor "#0000ff"; PointerMove 20 5 2%Z]
           17%Z H1 H2).
Defined.

(** The gesture of the witness, evaluated: the colour changed from red to
    blue after the first move, and the stroke and the row are blue. *)
Example gesture_example :
  strokes (demo_after [PointerDown (Some 0%Z) 0 0; PointerMove 10 10 1%Z;
                       SetColor "#0000ff"; PointerMove 20 5 2%Z; PointerUp 17%Z])
  = [mkStroke "local-17" (Some 0) "#0000ff" 4 "pen" "U1"]
  /\ inserts (demo_after [PointerDown (Some 0%Z) 0 0; PointerMove 10 10 1%Z;
                          SetColor "#0000ff"; PointerMove 20 5 2%Z; PointerUp 17%Z])
     = [mkInsertRow "R1" "U1" "Ann" "#22c55e"
          [mkPoint 0 0; mkPoint 10 10; mkPoint 20 5] "#0000ff" 4 "pen"].
Proof. split; vm_compute; reflexivity. Qed.

(** ** C6: the committed list only grows *)

Lemma initial_WF (color tool : string) (size : number) (c : Canvas) :
  WF (initial color tool size c).
Proof. unfold WF, initial. simpl. repeat split; try constructor; done. Qed.

Lemma run_WF (pr : Props) (evs : list Event) (s s' : State) :
  WF s -> run pr evs s = Ok s' -> WF s'.
Proof.
  revert s. induction evs as [|ev evs IH]; intros s HW Hrun; simpl in Hrun.
  - by injection Hrun as <-.
  - destruct (step pr ev s) as [s1|] eqn:Hs; [|done].
    apply (IH s1); [|done]. by destruct (step_effect pr ev s s1 HW Hs).
Qed.

(** C6. In every state the component reaches from its initial state, one
    turn of the event loop other than a clear (or the result of the initial
    load, which sets the list) keeps the committed list as a prefix of the
    new list and appends at most one stroke; a remote insert appends
    exactly one, at the tail. No event changes the point array of a stroke
    that is in the list, so committed strokes are never mutated. *)
Theorem C6_committed_list_is_append_only (pr : Props) (color tool : string)
    (size : number) (c : Canvas) (evs : list Event) (s : State) (ev : Event)
    (s' : State) :
  run pr evs (initial color tool size c) = Ok s ->
  step pr ev s = Ok s' ->
  (keeps_log ev = true ->
     strokes s `prefix_of` strokes s'
     /\ length (strokes s') <= S (length (strokes s)))
  /\ (forall payload, ev = RemoteInsert payload ->
        exists sk, strokes s' = strokes s ++ [sk])
  /\ (forall sk a, sk ∈ strokes s -> s_points sk = Some a ->
        deref (heap s') a = deref (heap s) a).
Proof.
  intros Hrun Hstep.
  assert (HW : WF s) by (eapply run_WF; [apply initial_WF|exact Hrun]).
  destruct (step_effect pr ev s s' HW Hstep) as (_ & Hkeep & Hlog).
  split; [|split].
  - intros Hk. destruct (Hlog Hk) as [->|[sk ->]].
    + split; [done|lia].
    + split; [by apply prefix_app_r|]. rewrite length_app. simpl. lia.
  - intros payload ->. simpl in Hstep. unfold onInsert in Hstep.
    destruct (stroke_of_row payload (heap s)) as [newStroke h].
    match type of Hstep with rerender_strokes ?t = _ =>
      destruct (rerender_strokes_shape t) as [cv Hr] end.
    rewrite Hr in Hstep. injection Hstep as <-. by exists newStroke.
  - intros sk a Hsk Ha. apply Hkeep. unfold stroke_addrs.
    apply list_elem_of_omap. eauto.
Qed.

Lemma C6_witness :
  run demo_props [PointerDown (Some 0%Z) 5 7; PointerMove 6 8 1%Z; PointerUp 2%Z]
    (initial "#ff0000" "pen" 4 demo_canvas)
  = Ok (demo_after [PointerDown (Some 0%Z) 5 7; PointerMove 6 8 1%Z; PointerUp 2%Z])
  /\ step demo_props (RemoteInsert (mkStrokeRow "r9" (Some [mkPoint 1 1; mkPoint 2 2])
                                     "#00ff00" 2 "pen" "U2"))
       (demo_after [PointerDown (Some 0%Z) 5 7; PointerMove 6 8 1%Z; PointerUp 2%Z])
     = Ok (demo_after [PointerDown (Some 0%Z) 5 7; PointerMove 6 8 1%Z; PointerUp 2%Z;
                       RemoteInsert (mkStrokeRow "r9" (Some [mkPoint 1 1; mkPoint 2 2])
                                       "#00ff00" 2 "pen" "U2")])
  /\ (keeps_log (RemoteInsert (mkStrokeRow "r9" (Some [mkPoint 1 1; mkPoint 2 2])
                                 "#00ff00" 2 "pen" "U2")) = true ->
      strokes (demo_after [PointerDown (Some 0%Z) 5 7; PointerMove 6 8 1%Z;
                           PointerUp 2%Z])
      `prefix_of`
      strokes (demo_after [PointerDown (Some 0%Z) 5 7; PointerMove 6 8 1%Z;
                           PointerUp 2%Z;
                           RemoteInsert (mkStrokeRow "r9"
                                           (Some [mkPoint 1 1; mkPoint 2 2])
                                           "#00ff00" 2 "pen" "U2")])
      /\ length (strokes (demo_after [PointerDown (Some 0%Z) 5 7; PointerMove 6 8 1%Z;
                                      PointerUp 2%Z;
                                      RemoteInsert (mkStrokeRow "r9"
                                                      (Some [mkPoint 1 1; mkPoint 2 2])
                                                      "#00ff00" 2 "pen" "U2")]))
         <= S (length (strokes (demo_after [PointerDown (Some 0%Z) 5 7;
                                            PointerMove 6 8 1%Z; PointerUp 2%Z]))))
  /\ (forall payload,
        RemoteInsert (mkStrokeRow "r9" (Some [mkPoint 1 1; mkPoint 2 2])
                        "#00ff00" 2 "pen" "U2") = RemoteInsert payload ->
        exists sk,
          strokes (demo_after [PointerDown (Some 0%Z) 5 7; PointerMove 6 8 1%Z;
                               PointerUp 2%Z;
                               RemoteInsert (mkStrokeRow "r9"
                                               (Some [mkPoint 1 1; mkPoint 2 2])
                                               "#00ff00" 2 "pen" "U2")])
          = strokes (demo_after [PointerDown (Some 0%Z) 5 7; PointerMove 6 8 1%Z;
                                 PointerUp 2%Z]) ++ [sk])
  /\ (forall sk a,
        sk ∈ strokes (demo_after [PointerDown (Some 0%Z) 5 7; PointerMove 6 8 1%Z;
                                  PointerUp 2%Z]) ->
        s_points sk = Some a ->
        deref (heap (demo_after [PointerDown (Some 0%Z) 5 7; PointerMove 6 8 1%Z;
                                 PointerUp 2%Z;
                                 RemoteInsert (mkStrokeRow "r9"
                                                 (Some [mkPoint 1 1; mkPoint 2 2])
                                                 "#00ff00" 2 "pen" "U2")])) a
        = deref (heap (demo_after [PointerDown (Some 0%Z) 5 7; PointerMove 6 8 1%Z;
                                   PointerUp 2%Z])) a).
Proof.
  assert (H1 : run demo_props
                 [PointerDown (Some 0%Z) 5 7; PointerMove 6 8 1%Z; PointerUp 2%Z]
                 (initial "#ff0000" "pen" 4 demo_canvas)
               = Ok (demo_after [PointerDown (Some 0%Z) 5 7; PointerMove 6 8 1%Z;
                                 PointerUp 2%Z])) by (vm_compute; reflexivity).
  assert (H2 : step demo_props
                 (RemoteInsert (mkStrokeRow "r9" (Some [mkPoint 1 1; mkPoint 2 2])
                                  "#00ff00" 2 "pen" "U2"))
                 (demo_after [PointerDown (Some 0%Z) 5 7; PointerMove 6 8 1%Z;
                              PointerUp 2%Z])
               = Ok (demo_after [PointerDown (Some 0%Z) 5 7; PointerMove 6 8 1%Z;
                                 PointerUp 2%Z;
                                 RemoteInsert (mkStrokeRow "r9"
                                                 (Some [mkPoint 1 1; mkPoint 2 2])
                                                 "#00ff00" 2 "pen" "U2")]))
    by (vm_compute; reflexivity).
  split; [exact H1|]. split; [exact H2|].
  exact (C6_committed_list_is_append_only demo_props "#ff0000" "pen" 4
           demo_canvas _ _ _ _ H1 H2).
Defined.

(** ** C7, C10: how strokes are composited *)

Lemma style_for_brushed (tool color : string) (size : number) (st : Ctx2D)
    (path : list PathCmd) :
  brushed tool color size path (StrokePath (style_for tool color size st) path).
Proof.
  unfold brushed, style_for.
  destruct (String.eqb_spec tool "eraser") as [->|Hne]; simpl;
    repeat split; try done.
Qed.

Lemma committed_paint_painted (h : Heap) (l : list Stroke) (st : Ctx2D) :
  Forall2 (painted_as h) (List.filter (is_visible h) l)
    (fst (committed_paint h l st)).
Proof.
  revert st. induction l as [|sk l IH]; intros st; simpl; [constructor|].
  unfold is_visible at 1. destruct (visible_points h sk) as [pts|] eqn:Hv.
  - simpl. constructor; [|apply IH]. unfold painted_as. rewrite Hv.
    apply style_for_brushed.
  - apply IH.
Qed.

Lemma drawSegment_spec (from to : Point) (s : State) (c : Canvas) :
  canvasRef s = Some c ->
  exists c',
    drawSegment (Some from) to s = Ok (set_canvasRef (Some c') s)
    /\ cv_surface c'
       = cv_surface c
         ++ [StrokePath
               (round_style
                  (style_for (currentToolRef s) (currentColorRef s)
                     (brushSizeRef s) (cv_state c)))
               [MoveTo (p_x from) (p_y from); LineTo (p_x to) (p_y to)]]
    /\ cv_state c' = cv_state c.
Proof.
  intros Hc. unfold drawSegment. rewrite Hc. eexists. split; [reflexivity|].
  unfold style_for, round_style.
  destruct (String.eqb (currentToolRef s) "eraser"); split; reflexivity.
Qed.

Lemma round_style_brushed (tool color : string) (size : number) (st : Ctx2D)
    (path : list PathCmd) :
  brushed tool color size path
    (StrokePath (round_style (style_for tool color size st)) path).
Proof.
  unfold brushed, style_for, round_style.
  destruct (String.eqb_spec tool "eraser") as [->|Hne]; simpl;
    repeat split; try done.
Qed.

(** C7. A full redraw paints one path per committed stroke that has at
    least two points, in list order, right after the background; the path
    of an eraser stroke is composited with [destination-out], which
    removes what is under it, and the path of any other stroke with
    [source-over] in the stroke's own colour. The incremental segment draw
    composites the segment the same way, by the current tool and colour. *)
Theorem C7_eraser_punches_through (s : State) (c : Canvas) :
  canvasRef s = Some c ->
  (exists s' ops rest,
     redrawAll s = Ok s'
     /\ screen s' = residue c ++ background_paint c :: ops ++ rest
     /\ Forall2 (painted_as (heap s))
          (List.filter (is_visible (heap s)) (strokesRef s)) ops)
  /\ (forall from to,
        exists s' op,
          drawSegment (Some from) to s = Ok s'
          /\ screen s' = screen s ++ [op]
          /\ brushed (currentToolRef s) (currentColorRef s) (brushSizeRef s)
               [MoveTo (p_x from) (p_y from); LineTo (p_x to) (p_y to)] op).
Proof.
  intros Hc. split.
  - destruct (redrawAll_mounted s c Hc) as (c' & Hr & Hs & _).
    eexists _, _, _. split; [exact Hr|]. unfold screen. simpl_state.
    rewrite Hs. unfold foreground. split; [reflexivity|].
    apply committed_paint_painted.
  - intros from to. destruct (drawSegment_spec from to s c Hc) as (c' & Hd & Hs & _).
    eexists _, _. split; [exact Hd|]. unfold screen. simpl_state.
    rewrite Hc, Hs. split; [reflexivity|]. apply round_style_brushed.
Qed.

Lemma C7_witness :
  canvasRef demo_scene = Some demo_canvas
  /\ (exists s' ops rest,
        redrawAll demo_scene = Ok s'
        /\ screen s' = residue demo_canvas ++ background_paint demo_canvas :: ops ++ rest
        /\ Forall2 (painted_as (heap demo_scene))
             (List.filter (is_visible (heap demo_scene)) (strokesRef demo_scene)) ops)
  /\ (forall from to,
        exists s' op,
          drawSegment (Some from) to demo_scene = Ok s'
          /\ screen s' = screen demo_scene ++ [op]
          /\ brushed (currentToolRef demo_scene) (currentColorRef demo_scene)
               (brushSizeRef demo_scene)
               [MoveTo (p_x from) (p_y from); LineTo (p_x to) (p_y to)] op).
Proof.
  assert (H1 : canvasRef demo_scene = Some demo_canvas) by reflexivity.
  split; [exact H1|].
  exact (C7_eraser_punches_through demo_scene demo_canvas H1).
Defined.

(** C10. While [currentPointsRef] holds at least two points, a full redraw
    paints the whole in-progress stroke as one path, after the committed
    strokes and before the cursors, with the tool, colour and size in the
    ref cells at the time of the redraw; an incremental segment is painted
    with the values in the ref cells at the time of its move. *)
Theorem C10_redraw_repaints_pending_with_live_values (s : State) (c : Canvas)
    (a : addr) :
  canvasRef s = Some c -> currentPointsRef s = Some a ->
  2 <= length (deref (heap s) a) ->
  (exists s' op st,
     redrawAll s = Ok s'
     /\ screen s'
        = residue c ++ background_paint c
            :: fst (committed_paint (heap s) (strokesRef s) (scene_state c))
            ++ [op] ++ cursor_paint (remoteCursors s) st
     /\ brushed (currentToolRef s) (currentColorRef s) (brushSizeRef s)
          (polyline (deref (heap s) a)) op)
  /\ (forall from to,
        exists s' op,
          drawSegment (Some from) to s = Ok s'
          /\ screen s' = screen s ++ [op]
          /\ brushed (currentToolRef s) (currentColorRef s) (brushSizeRef s)
               [MoveTo (p_x from) (p_y from); LineTo (p_x to) (p_y to)] op).
Proof.
  intros Hc Ha Hlen. split.
  - destruct (redrawAll_mounted s c Hc) as (c' & Hr & Hs & _).
    eexists _, _, _. split; [exact Hr|]. unfold screen. simpl_state.
    rewrite Hs. unfold foreground, pending_paint, pending_points. rewrite Ha.
    destruct (Nat.leb_spec 2 (length (deref (heap s) a))); [|lia]. simpl.
    split; [reflexivity|]. apply style_for_brushed.
  - intros from to. destruct (drawSegment_spec from to s c Hc) as (c' & Hd & Hs & _).
    eexists _, _. split; [exact Hd|]. unfold screen. simpl_state.
    rewrite Hc, Hs. split; [reflexivity|]. apply round_style_brushed.
Qed.

Lemma C10_witness :
  canvasRef demo_scene = Some demo_canvas
  /\ currentPointsRef demo_scene = Some 2
  /\ 2 <= length (deref (heap demo_scene) 2)
  /\ (exists s' op st,
        redrawAll demo_scene = Ok s'
        /\ screen s'
           = residue demo_canvas ++ background_paint demo_canvas
               :: fst (committed_paint (heap demo_scene) (strokesRef demo_scene)
                         (scene_state demo_canvas))
               ++ [op] ++ cursor_paint (remoteCursors demo_scene) st
        /\ brushed (currentToolRef demo_scene) (currentColorRef demo_scene)
             (brushSizeRef demo_scene) (polyline (deref (heap demo_scene) 2)) op)
  /\ (forall from to,
        exists s' op,
          drawSegment (Some from) to demo_scene = Ok s'
          /\ screen s' = screen demo_scene ++ [op]
          /\ brushed (currentToolRef demo_scene) (currentColorRef demo_scene)
               (brushSizeRef demo_scene)
               [MoveTo (p_x from) (p_y from); LineTo (p_x to) (p_y to)] op).
Proof.
  assert (H1 : canvasRef demo_scene = Some demo_canvas) by reflexivity.
  assert (H2 : currentPointsRef demo_scene = Some 2) by reflexivity.
  assert (H3 : 2 <= length (deref (heap demo_scene) 2)) by (vm_compute; lia).
  split; [exact H1|]. split; [exact H2|]. split; [exact H3|].
  exact (C10_redraw_repaints_pending_with_live_values demo_scene demo_canvas 2
           H1 H2 H3).
Defined.

(** A colour change in the middle of a gesture: the segment on screen was
    drawn red; the next full redraw (here after a presence sync) shows the
    in-progress stroke blue and nothing red. *)
Example pending_is_recoloured_example :
  omap stroke_colour
    (screen (demo_after [PointerDown (Some 0%Z) 0 0; PointerMove 10 10 1%Z;
                         SetColor "#0000ff"])) = ["#ff0000"]
  /\ omap stroke_colour
       (screen (demo_after [PointerDown (Some 0%Z) 0 0; PointerMove 10 10 1%Z;
                            SetColor "#0000ff"; PresenceSync []])) = ["#0000ff"].
Proof. split; vm_compute; reflexivity. Qed.

(** ** C9, C4: what a redraw leaves of earlier paint *)

(** At a device pixel ratio of at least 1 the clear covers the bitmap. *)
Lemma residue_nil (c : Canvas) : (1 <= cv_scale c)%Q -> residue c = [].
Proof.
  intros Hs. unfold residue, clearRect.
  assert (Hcov : covers_bitmap c 0 0 (inject_Z (Z.of_N (cv_width c)))
                   (inject_Z (Z.of_N (cv_height c))) = true).
  { unfold covers_bitmap.
    assert (Hw : (0 <= inject_Z (Z.of_N (cv_width c)))%Q).
    { change 0%Q with (inject_Z 0). rewrite <- Zle_Qle. lia. }
    assert (Hh : (0 <= inject_Z (Z.of_N (cv_height c)))%Q).
    { change 0%Q with (inject_Z 0). rewrite <- Zle_Qle. lia. }
    rewrite !andb_true_iff, !Qle_bool_iff. repeat split; nra. }
  by rewrite Hcov.
Qed.

Lemma foreground_frame (l : list Stroke) (s : State) (c c' : Canvas) :
  cv_state c' = cv_state c -> foreground l s c' = foreground l s c.
Proof. intros H. unfold foreground, scene_state. by rewrite H. Qed.






(** A clear that arrives after a pointer-up and before the insert has
    settled: [currentPointsRef] still holds the finished gesture, so the
    redraw paints it once more although the committed list is empty. *)
Example clear_before_insert_settles_example :
  strokes (demo_after [PointerDown (Some 0%Z) 0 0; PointerMove 10 10 1%Z;
                       PointerUp 2%Z; RemoteDelete]) = []
  /\ omap stroke_colour
       (screen (demo_after [PointerDown (Some 0%Z) 0 0; PointerMove 10 10 1%Z;
                            PointerUp 2%Z; RemoteDelete])) = ["#ff0000"].
Proof. split; vm_compute; reflexivity. Qed.

(** ** C8: presence sync *)

Lemma map_keys_set {V : Type} (k : string) (v : V) (m : JsMap V) (x : string) :
  x ∈ map_keys (map_set k v m) <-> x = k \/ x ∈ map_keys m.
Proof.
  unfold map_keys. induction m as [|[k' v'] m IH]; simpl.
  - rewrite list_elem_of_singleton. split; [auto|]. intros [->|H]; [done|].
    by apply not_elem_of_nil in H.
  - destruct (String.eqb_spec k' k) as [->|Hne]; simpl.
    + rewrite !elem_of_cons. tauto.
    + rewrite !elem_of_cons, IH. tauto.
Qed.

Lemma map_set_NoDup {V : Type} (k : string) (v : V) (m : JsMap V) :
  NoDup (map_keys m) -> NoDup (map_keys (map_set k v m)).
Proof.
  induction m as [|[k' v'] m IH]; simpl; intros Hnd.
  - apply NoDup_singleton.
  - destruct (String.eqb_spec k' k) as [->|Hne]; simpl; [done|].
    apply NoDup_cons in Hnd as [Hk' Hnd]. apply NoDup_cons. split; [|auto].
    fold (map_keys (map_set k v m)). rewrite map_keys_set. intros [->|H]; done.
Qed.

Lemma map_set_Forall {V : Type} (P : string * V -> Prop) (k : string) (v : V)
    (m : JsMap V) :
  P (k, v) -> Forall P m -> Forall P (map_set k v m).
Proof.
  intros Hk. induction m as [|[k' v'] m IH]; simpl; intros Hm.
  - by constructor.
  - apply Forall_cons in Hm as [H1 H2].
    destruct (String.eqb k' k); constructor; auto.
Qed.

Lemma sync_fold (pr : Props) (state : PresenceState) (keys : list string) :
  forall acc : JsMap RemoteCursor,
    NoDup (map_keys acc) ->
    Forall (from_first_record state) acc ->
    (forall key, key ∈ keys -> key ∈ map_keys state) ->
    NoDup (map_keys (fold_left (sync_key pr state) keys acc))
    /\ Forall (from_first_record state) (fold_left (sync_key pr state) keys acc)
    /\ forall u,
         u ∈ map_keys (fold_left (sync_key pr state) keys acc)
         <-> u ∈ map_keys acc
             \/ u ∈ List.filter (fun u => negb (String.eqb u (userId pr)))
                      (omap (first_id state) keys).
Proof.
  induction keys as [|key keys IH]; intros acc Hnd Hall Hkeys; simpl.
  - split; [done|]. split; [done|]. intros u. split; [auto|].
    intros [H|H]; [done|]. by apply not_elem_of_nil in H.
  - assert (Hrest : forall k, k ∈ keys -> k ∈ map_keys state).
    { intros k Hk. apply Hkeys. by right. }
    destruct (map_get key state) as [[|presence rest]|] eqn:Hget.
    + assert (Hk : sync_key pr state acc key = acc)
        by (unfold sync_key; by rewrite Hget).
      assert (Hf : first_id state key = None)
        by (unfold first_id; by rewrite Hget).
      rewrite Hk, Hf. by apply IH.
    + destruct (String.eqb_spec (user_id presence) (userId pr)) as [Heq|Hne].
      * assert (Hk : sync_key pr state acc key = acc).
        { unfold sync_key. rewrite Hget, Heq. by rewrite String.eqb_refl. }
        assert (Hf : first_id state key = Some (userId pr))
          by (unfold first_id; by rewrite Hget, Heq).
        rewrite Hk, Hf. simpl. rewrite String.eqb_refl. simpl. by apply IH.
      * assert (Hk : sync_key pr state acc key
                     = map_set (user_id presence) (cursor_of_presence presence) acc).
        { unfold sync_key. rewrite Hget.
          by destruct (String.eqb_spec (user_id presence) (userId pr)). }
        assert (Hf : first_id state key = Some (user_id presence))
          by (unfold first_id; by rewrite Hget).
        rewrite Hk, Hf. simpl.
        destruct (String.eqb_spec (user_id presence) (userId pr)); [done|]. simpl.
        destruct (IH (map_set (user_id presence) (cursor_of_presence presence) acc))
          as (N & F & M); try done.
        { by apply map_set_NoDup. }
        { apply map_set_Forall; [|done]. exists key, presence, rest.
          split; [apply Hkeys; by left|done]. }
        split; [done|]. split; [done|]. intros u. rewrite M, map_keys_set.
        rewrite elem_of_cons. tauto.
    + assert (Hk : sync_key pr state acc key = acc)
        by (unfold sync_key; by rewrite Hget).
      assert (Hf : first_id state key = None)
        by (unfold first_id; by rewrite Hget).
      rewrite Hk, Hf. by apply IH.
Qed.

(** C8. A presence sync replaces the remote-cursor map by one computed
    from the snapshot alone: every entry is the first presence record of
    some connection key, keyed by that record's user id; the keys are the
    user ids of the first records other than the local participant's, each
    exactly once, so the map has as many entries as the snapshot has
    distinct remote users and none for the local user. *)
Theorem C8_presence_sync_rebuilds_cursors (pr : Props) (state : PresenceState)
    (s : State) :
  exists s',
    onPresenceSync pr state s = Ok s'
    /\ remoteCursors s' = sync_cursors pr state
    /\ Forall (from_first_record state) (remoteCursors s')
    /\ NoDup (map_keys (remoteCursors s'))
    /\ (forall u, (u ∈ map_keys (remoteCursors s')) <-> (u ∈ remote_ids pr state))
    /\ (userId pr ∉ map_keys (remoteCursors s'))
    /\ length (remoteCursors s') = length (remove_dups (remote_ids pr state)).
Proof.
  unfold onPresenceSync.
  destruct (rerender_cursors_shape (set_remoteCursors (sync_cursors pr state) s))
    as [cv Hr].
  eexists. split; [exact Hr|]. simpl_state. split; [done|].
  destruct (sync_fold pr state (map_keys state) []) as (N & F & M);
    [apply NoDup_nil_2|constructor|done|].
  fold (sync_cursors pr state) in N, F, M.
  assert (Hin : forall u, u ∈ map_keys (sync_cursors pr state)
                          <-> u ∈ remote_ids pr state).
  { intros u. rewrite M. unfold remote_ids. split; [|auto].
    intros [H|H]; [|done]. by apply not_elem_of_nil in H. }
  split; [done|]. split; [done|]. split; [done|]. split.
  - rewrite Hin. unfold remote_ids. rewrite list_elem_of_In, filter_In.
    intros [_ H]. by rewrite String.eqb_refl in H.
  - transitivity (length (map_keys (sync_cursors pr state))).
    { unfold map_keys. by rewrite length_map. }
    apply Permutation_length, NoDup_Permutation; [done|apply NoDup_remove_dups|].
    intros u. by rewrite Hin, elem_of_remove_dups.
Qed.

(** The scenario of the specification: the snapshot carries the local
    user U1 and the remote users U2 and U3; the map gets two entries. *)
Example presence_sync_example :
  map_keys (sync_cursors demo_props demo_presence) = ["U2"; "U3"].
Proof. vm_compute; reflexivity. Qed.

(** The example board is well formed and a redraw of it paints the
    background, the pen stroke, the eraser stroke, the in-progress stroke
    and the cursor, in this order. *)
Example demo_scene_example :
  wf demo_scene = true
  /\ exists s',
       redrawAll demo_scene = Ok s'
       /\ map (fun op =>
                 match op with
                 | StrokePath st _ => globalCompositeOperation st
                 | FillRect _ _ _ _ _ => "background"
                 | FillPath _ _ => "dot"
                 | FillText _ _ _ _ => "label"
                 | ClearRect _ _ _ _ => "clear"
                 end) (screen s')
          = ["background"; "source-over"; "destination-out"; "source-over";
             "dot"; "label"].
Proof.
  split; [vm_compute; reflexivity|].
  eexists. split; vm_compute; reflexivity.
Qed.

(** * The mounted component *)

Lemma rerender_strokes_mounted (s : State) (c : Canvas) :
  canvasRef s = Some c ->
  exists c',
    rerender_strokes s
    = Ok (set_canvasRef (Some c') (set_strokesRef (strokes s) s))
    /\ cv_surface c'
       = residue c ++ background_paint c :: foreground (strokes s) s c
    /\ cv_state c' = cv_state c
    /\ same_frame c c'.
Proof.
  intros Hc. unfold rerender_strokes.
  destruct (redrawAll_mounted (set_strokesRef (strokes s) s) c Hc)
    as (c' & R & S & T & F).
  exists c'. split; [exact R|]. split; [exact S|]. by split.
Qed.

Lemma rerender_cursors_mounted (s : State) (c : Canvas) :
  canvasRef s = Some c ->
  exists c',
    rerender_cursors s
    = Ok (set_canvasRef (Some c') (set_strokesRef (strokes s) s)).
Proof.
  intros Hc. unfold rerender_cursors.
  destruct (redrawAll_mounted (set_strokesRef (strokes s) s) c Hc)
    as (c1 & R1 & _).
  rewrite R1. cbn [rbind].
  destruct (redrawAll_mounted
              (set_canvasRef (Some c1) (set_strokesRef (strokes s) s)) c1 eq_refl)
    as (c2 & R2 & _).
  rewrite R2. by exists c2.
Qed.

Lemma commitStroke_mounted (pr : Props) (now : Z) (s : State) (a : addr)
    (c : Canvas) :
  canvasRef s = Some c ->
  currentPointsRef s = Some a -> deref (heap s) a <> [] ->
  exists c',
    commitStroke pr now s
    = Ok (set_canvasRef (Some c')
            (set_inserts (inserts s ++ [insert_row pr a s])
               (set_strokes (strokes s ++ [local_stroke pr now a s])
                  (set_strokesRef (strokes s ++ [local_stroke pr now a s]) s))))
    /\ cv_surface c'
       = residue c ++ background_paint c
           :: foreground (strokes s ++ [local_stroke pr now a s]) s c.
Proof.
  intros Hc Ha Hne. unfold commitStroke. rewrite Ha.
  destruct (deref (heap s) a) as [|p0 rest] eqn:Hd; [done|]. simpl.
  match goal with |- context [rerender_strokes ?t] =>
    destruct (rerender_strokes_mounted t c Hc) as (c' & Hr & Hs & _) end.
  exists c'. rewrite Hr. unfold insert_row, local_stroke. simpl_state.
  rewrite Hd. split; [done|]. exact Hs.
Qed.

Lemma initial_Alive (pr : Props) (color tool : string) (size : number)
    (c : Canvas) :
  Alive pr (initial color tool size c).
Proof.
  split; [apply initial_WF|]. unfold initial. simpl.
  split; [by eexists|]. split; [done|]. split; constructor.
Qed.

Lemma step_Alive (pr : Props) (ev : Event) (s : State) :
  Alive pr s -> exists s', step pr ev s = Ok s' /\ Alive pr s'.
Proof.
  intros (HW & [c Hc] & Hne & Ht & Hi).
  enough (exists s',
            step pr ev s = Ok s'
            /\ is_Some (canvasRef s')
            /\ (forall a, currentPointsRef s' = Some a -> deref (heap s') a <> [])
            /\ Forall (local_presence pr) (tracked s')
            /\ Forall (local_row pr) (inserts s')) as (s' & Hs & H1 & H2 & H3 & H4).
  { exists s'. split; [done|].
    destruct (step_effect pr ev s s' HW Hs) as [HW' _].
    exact (conj HW' (conj H1 (conj H2 (conj H3 H4)))). }
  pose proof HW as (W1 & W2 & W3).
  destruct ev as [button cx cy|cx cy now|now|error|payload| |state|data error|v|v|v];
    cbn [step].
  - (* pointer down *)
    unfold handlePointerDown, getPointFromEvent.
    destruct (match button with Some b => negb (b =? 0)%Z | None => false end).
    { exists s. split; [done|]. split; [by exists c|]. by split. }
    simpl_state. rewrite Hc. cbn [rbind alloc].
    eexists. split; [reflexivity|]. simpl_state.
    split; [by eexists|]. split; [|done].
    intros a [= <-]. unfold deref.
    by rewrite lookup_app_r, Nat.sub_diag by lia.
  - (* pointer move *)
    assert (Hloc : Forall (local_presence pr)
                     (tracked s ++
                        [mkPresence (userId pr) (userName pr) (userColor pr)
                           (cx - cv_left c) (cy - cv_top c) now])).
    { apply Forall_app. split; [done|]. by repeat constructor. }
    destruct (isDrawingRef s) eqn:Hd; [destruct (currentPointsRef s) as [a|] eqn:Ha|].
    + destruct (handlePointerMove_capturing pr cx cy now s c a Hc Hd Ha (Hne a eq_refl))
        as (c' & Hm & _).
      eexists. split; [exact Hm|]. simpl_state.
      split; [by eexists|]. split; [|done].
      intros b Hb. rewrite Ha in Hb. injection Hb as <-.
      destruct (W3 a eq_refl) as [Hlt _]. rewrite deref_push_eq by done.
      by destruct (deref (heap s) a).
    + unfold handlePointerMove, getPointFromEvent. rewrite Hc. cbn [rbind].
      simpl_state. rewrite Hd, Ha. simpl.
      eexists. split; [reflexivity|]. simpl_state. rewrite Ha.
      split; [by eexists|]. by split.
    + unfold handlePointerMove, getPointFromEvent. rewrite Hc. cbn [rbind].
      simpl_state. rewrite Hd. simpl.
      eexists. split; [reflexivity|]. simpl_state.
      split; [by eexists|]. by split.
  - (* pointer up *)
    unfold handlePointerUp. destruct (isDrawingRef s) eqn:Hd; simpl.
    2:{ exists s. split; [done|]. split; [by exists c|]. by split. }
    destruct (currentPointsRef s) as [a|] eqn:Ha.
    + destruct (commitStroke_mounted pr now (set_isDrawingRef false s) a c Hc Ha
                  (Hne a eq_refl)) as (c' & Hcm & _).
      eexists. split; [exact Hcm|]. simpl_state.
      split; [by eexists|]. split; [by rewrite Ha|]. split; [done|].
      apply Forall_app. split; [done|]. constructor; [|done].
      unfold local_row, insert_row. simpl. repeat split. by apply Hne.
    + unfold commitStroke. simpl_state. rewrite Ha.
      eexists. split; [reflexivity|]. simpl_state. rewrite Ha.
      split; [by eexists|]. by split.
  - (* the insert settled *)
    eexists. split; [reflexivity|]. unfold commitStroke_resume.
    destruct error; simpl_state; (split; [by eexists|]); by split.
  - (* remote insert *)
    unfold onInsert.
    destruct (stroke_of_row_spec payload (heap s)) as (ext & Hext & _).
    destruct (stroke_of_row payload (heap s)) as [newStroke h].
    simpl in Hext. subst h.
    match goal with |- context [rerender_strokes ?t] =>
      destruct (rerender_strokes_mounted t c Hc) as (c' & Hr & _) end.
    eexists. split; [exact Hr|]. simpl_state.
    split; [by eexists|]. split; [|done].
    intros a Ha. destruct (W3 a Ha) as [Hlt _]. rewrite deref_app by done. auto.
  - (* remote delete *)
    unfold onDelete.
    match goal with |- context [rerender_strokes ?t] =>
      destruct (rerender_strokes_mounted t c Hc) as (c' & Hr & _) end.
    eexists. split; [exact Hr|]. simpl_state. split; [by eexists|]. by split.
  - (* presence sync *)
    unfold onPresenceSync.
    match goal with |- context [rerender_cursors ?t] =>
      destruct (rerender_cursors_mounted t c Hc) as (c' & Hr) end.
    eexists. split; [exact Hr|]. simpl_state. split; [by eexists|]. by split.
  - (* the load settled *)
    unfold loadStrokes_resume. destruct error as [e|].
    { eexists. split; [reflexivity|]. simpl_state. rewrite Hc.
      split; [by eexists|]. by split. }
    destruct data as [rows|].
    + destruct (strokes_of_rows_spec rows (heap s)) as (ext & Hext & _).
      destruct (strokes_of_rows rows (heap s)) as [parsed h].
      simpl in Hext. subst h.
      match goal with |- context [rerender_strokes ?t] =>
        destruct (rerender_strokes_mounted t c Hc) as (c' & Hr & _) end.
      eexists. split; [exact Hr|]. simpl_state.
      split; [by eexists|]. split; [|done].
      intros a Ha. destruct (W3 a Ha) as [Hlt _]. rewrite deref_app by done. auto.
    + match goal with |- context [rerender_strokes ?t] =>
        destruct (rerender_strokes_mounted t c Hc) as (c' & Hr & _) end.
      eexists. split; [exact Hr|]. simpl_state. split; [by eexists|]. by split.
  - eexists. split; [reflexivity|]. simpl_state. rewrite Hc.
    split; [by eexists|]. by split.
  - eexists. split; [reflexivity|]. simpl_state. rewrite Hc.
    split; [by eexists|]. by split.
  - eexists. split; [reflexivity|]. simpl_state. rewrite Hc.
    split; [by eexists|]. by split.
Qed.

Lemma run_Alive (pr : Props) (evs : list Event) (s : State) :
  Alive pr s -> exists s', run pr evs s = Ok s' /\ Alive pr s'.
Proof.
  revert s. induction evs as [|ev evs IH]; intros s HA; simpl.
  - by exists s.
  - destruct (step_Alive pr ev s HA) as (s1 & Hs & HA1). rewrite Hs. simpl.
    by apply IH.
Qed.


(** X2. Everything a mounted component sends out is under its own
    identity: every presence record tracked on a pointer move carries the
    local user id, name and colour, and every row submitted to the
    persistence port carries the local room and user and at least one
    point. *)
Theorem outgoing_data_is_local (pr : Props) (color tool : string)
    (size : number) (c : Canvas) (evs : list Event) (s : State) :
  run pr evs (initial color tool size c) = Ok s ->
  Forall (local_presence pr) (tracked s) /\ Forall (local_row pr) (inserts s).
Proof.
  intros Hrun.
  destruct (run_Alive pr evs _ (initial_Alive pr color tool size c))
    as (s' & Hs & (_ & _ & _ & Ht & Hi)).
  rewrite Hrun in Hs. injection Hs as <-. by split.
Qed.

Lemma outgoing_data_witness :
  run demo_props [PointerDown (Some 0%Z) 5 7; PointerMove 6 8 1%Z; PointerUp 2%Z]
    (initial "#ff0000" "pen" 4 demo_canvas)
  = Ok (demo_after [PointerDown (Some 0%Z) 5 7; PointerMove 6 8 1%Z; PointerUp 2%Z])
  /\ Forall (local_presence demo_props)
       (tracked (demo_after [PointerDown (Some 0%Z) 5 7; PointerMove 6 8 1%Z;
                             PointerUp 2%Z]))
  /\ Forall (local_row demo_props)
       (inserts (demo_after [PointerDown (Some 0%Z) 5 7; PointerMove 6 8 1%Z;
                             PointerUp 2%Z])).
Proof.
  assert (H : run demo_props
                [PointerDown (Some 0%Z) 5 7; PointerMove 6 8 1%Z; PointerUp 2%Z]
                (initial "#ff0000" "pen" 4 demo_canvas)
              = Ok (demo_after [PointerDown (Some 0%Z) 5 7; PointerMove 6 8 1%Z;
                                PointerUp 2%Z])) by (vm_compute; reflexivity).
  split; [exact H|].
  exact (outgoing_data_is_local demo_props "#ff0000" "pen" 4 demo_canvas _ _ H).
Defined.

(** X3. In every reachable state a pointer move publishes exactly one
    presence record, with the pointer position relative to the canvas and
    the time of the move, whether or not a gesture is being captured; it
    never touches the committed list or the persistence port. *)
Theorem every_move_is_tracked (pr : Props) (color tool : string)
    (size : number) (c0 : Canvas) (evs : list Event) (s : State)
    (clientX clientY : number) (now : Z) :
  run pr evs (initial color tool size c0) = Ok s ->
  exists s' c,
    canvasRef s = Some c
    /\ step pr (PointerMove clientX clientY now) s = Ok s'
    /\ tracked s'
       = tracked s
         ++ [mkPresence (userId pr) (userName pr) (userColor pr)
               (clientX - cv_left c) (clientY - cv_top c) now]
    /\ strokes s' = strokes s
    /\ inserts s' = inserts s.
Proof.
  intros Hrun.
  destruct (run_Alive pr evs _ (initial_Alive pr color tool size c0))
    as (s1 & Hs & (HW & [c Hc] & Hne & _)).
  rewrite Hrun in Hs. injection Hs as <-.
  cbn [step].
  destruct (isDrawingRef s) eqn:Hd; [destruct (currentPointsRef s) as [a|] eqn:Ha|].
  - destruct (handlePointerMove_capturing pr clientX clientY now s c a Hc Hd Ha
                (Hne a eq_refl)) as (c' & Hm & _).
    eexists _, c. split; [done|]. split; [exact Hm|]. by simpl_state.
  - unfold handlePointerMove, getPointFromEvent. rewrite Hc. cbn [rbind].
    simpl_state. rewrite Hd, Ha. simpl.
    eexists _, c. split; [done|]. split; [reflexivity|]. by simpl_state.
  - unfold handlePointerMove, getPointFromEvent. rewrite Hc. cbn [rbind].
    simpl_state. rewrite Hd. simpl.
    eexists _, c. split; [done|]. split; [reflexivity|]. by simpl_state.
Qed.

Lemma every_move_witness :
  run demo_props [PointerDown (Some 0%Z) 5 7; PointerMove 6 8 1%Z; PointerUp 2%Z]
    (initial "#ff0000" "pen" 4 demo_canvas)
  = Ok (demo_after [PointerDown (Some 0%Z) 5 7; PointerMove 6 8 1%Z; PointerUp 2%Z])
  /\ exists s' c,
       canvasRef (demo_after [PointerDown (Some 0%Z) 5 7; PointerMove 6 8 1%Z;
                              PointerUp 2%Z]) = Some c
       /\ step demo_props (PointerMove 50 60 3%Z)
            (demo_after [PointerDown (Some 0%Z) 5 7; PointerMove 6 8 1%Z;
                         PointerUp 2%Z]) = Ok s'
       /\ tracked s'
          = tracked (demo_after [PointerDown (Some 0%Z) 5 7; PointerMove 6 8 1%Z;
                                 PointerUp 2%Z])
            ++ [mkPresence (userId demo_props) (userName demo_props)
                  (userColor demo_props) (50 - cv_left c) (60 - cv_top c) 3%Z]
       /\ strokes s'
          = strokes (demo_after [PointerDown (Some 0%Z) 5 7; PointerMove 6 8 1%Z;
                                 PointerUp 2%Z])
       /\ inserts s'
          = inserts (demo_after [PointerDown (Some 0%Z) 5 7; PointerMove 6 8 1%Z;
                                 PointerUp 2%Z]).
Proof.
  assert (H : run demo_props
                [PointerDown (Some 0%Z) 5 7; PointerMove 6 8 1%Z; PointerUp 2%Z]
                (initial "#ff0000" "pen" 4 demo_canvas)
              = Ok (demo_after [PointerDown (Some 0%Z) 5 7; PointerMove 6 8 1%Z;
                                PointerUp 2%Z])) by (vm_compute; reflexivity).
  split; [exact H|].
  exact (every_move_is_tracked demo_props "#ff0000" "pen" 4 demo_canvas _ _
           50 60 3%Z H).
Defined.

(** * Reading the committed list back *)

Lemma row_of_stroke_ext (h ext : Heap) (sk : Stroke) :
  (forall a, s_points sk = Some a -> a < length h) ->
  row_of_stroke (h ++ ext) sk = row_of_stroke h sk.
Proof.
  intros H. unfold row_of_stroke. destruct (s_points sk) as [a|]; [|done].
  simpl. by rewrite deref_app by auto.
Qed.

Lemma log_rows_ext (h ext : Heap) (l : list Stroke) :
  Forall (fun a => a < length h) (stroke_addrs l) ->
  map (row_of_stroke (h ++ ext)) l = map (row_of_stroke h) l.
Proof.
  induction l as [|sk l IH]; intros H; [done|]. simpl.
  rewrite stroke_addrs_cons in H. apply Forall_app in H as [H1 H2].
  rewrite IH by done. f_equal. apply row_of_stroke_ext.
  intros a Ha. unfold stroke_addrs in H1. simpl in H1. rewrite Ha in H1.
  by apply Forall_inv in H1.
Qed.

Lemma stroke_of_row_read (r : StrokeRow) (h : Heap) :
  row_of_stroke (snd (stroke_of_row r h)) (fst (stroke_of_row r h)) = r
  /\ forall a, s_points (fst (stroke_of_row r h)) = Some a ->
       a < length (snd (stroke_of_row r h)).
Proof.
  unfold stroke_of_row, row_of_stroke. destruct r as [id [pts|] color size tool user];
    simpl.
  - split.
    + unfold deref. by rewrite lookup_app_r, Nat.sub_diag by lia.
    + intros a [= <-]. rewrite length_app. simpl. lia.
  - by split.
Qed.

Lemma strokes_of_rows_read (rows : list StrokeRow) (h : Heap) :
  map (row_of_stroke (snd (strokes_of_rows rows h))) (fst (strokes_of_rows rows h))
  = rows.
Proof.
  revert h. induction rows as [|r rows IH]; intros h; simpl; [done|].
  destruct (stroke_of_row_read r h) as [Hr Hb].
  destruct (stroke_of_row r h) as [sk h1]. simpl in Hr, Hb.
  destruct (strokes_of_rows_spec rows h1) as (ext & Hext & _).
  specialize (IH h1).
  destruct (strokes_of_rows rows h1) as [sks h2]. simpl in *. subst h2.
  by rewrite IH, row_of_stroke_ext, Hr.
Qed.

(** X4. When the initial load settles with rows, the committed list is
    replaced by the rows, in order and field for field (read back through
    the heap), whatever the list held before; with no data the list is
    emptied; with an error the list and the screen stay as they are and
    one line is logged. *)
Theorem load_replaces_the_list (s : State) :
  (forall rows,
     exists s',
       loadStrokes_resume (Some rows) None s = Ok s'
       /\ log_rows s' = rows
       /\ strokesRef s' = strokes s'
       /\ inserts s' = inserts s)
  /\ (exists s',
        loadStrokes_resume None None s = Ok s'
        /\ strokes s' = [] /\ strokesRef s' = [])
  /\ (forall data e,
        exists s',
          loadStrokes_resume data (Some e) s = Ok s'
          /\ strokes s' = strokes s
          /\ strokesRef s' = strokesRef s
          /\ screen s' = screen s
          /\ console s' = console s ++ ["Error loading strokes: " +:+ e]).
Proof.
  split; [|split].
  - intros rows. unfold loadStrokes_resume.
    pose proof (strokes_of_rows_read rows (heap s)) as Hread.
    destruct (strokes_of_rows rows (heap s)) as [parsed h]. simpl in Hread.
    match goal with |- context [rerender_strokes ?t] =>
      destruct (rerender_strokes_shape t) as [cv Hr] end.
    eexists. split; [exact Hr|]. unfold log_rows. by simpl_state.
  - unfold loadStrokes_resume.
    destruct (rerender_strokes_shape (set_strokes [] s)) as [cv Hr].
    eexists. split; [exact Hr|]. by simpl_state.
  - intros data e. eexists. split; [reflexivity|]. by unfold screen; simpl_state.
Qed.

Lemma onInsert_read (pr : Props) (payload : StrokeRow) (s : State) :
  WF s ->
  exists s',
    onInsert payload s = Ok s' /\ WF s' /\ log_rows s' = log_rows s ++ [payload].
Proof.
  intros HW. pose proof HW as (W1 & _).
  destruct (stroke_of_row_read payload (heap s)) as [Hread _].
  destruct (stroke_of_row_spec payload (heap s)) as (ext & Hext & _).
  assert (Hstep : exists s', onInsert payload s = Ok s'
                             /\ log_rows s' = log_rows s ++ [payload]).
  { unfold onInsert.
    destruct (stroke_of_row payload (heap s)) as [newStroke h].
    simpl in Hread, Hext. subst h.
    match goal with |- context [rerender_strokes ?t] =>
      destruct (rerender_strokes_shape t) as [cv Hr] end.
    eexists. split; [exact Hr|]. unfold log_rows. simpl_state.
    by rewrite map_app, log_rows_ext, <- Hread. }
  destruct Hstep as (s' & Hs & Hl). exists s'. split; [done|]. split; [|done].
  by destruct (step_effect pr (RemoteInsert payload) s s' HW Hs).
Qed.

Lemma remote_inserts_run (pr : Props) (rows : list StrokeRow) :
  forall s,
    WF s ->
    exists s',
      run pr (map RemoteInsert rows) s = Ok s'
      /\ WF s' /\ log_rows s' = log_rows s ++ rows.
Proof.
  induction rows as [|r rows IH]; intros s HW; simpl.
  - exists s. by rewrite app_nil_r.
  - destruct (onInsert_read pr r s HW) as (s1 & H1 & W1 & L1). rewrite H1. simpl.
    destruct (IH s1 W1) as (s2 & H2 & W2 & L2).
    exists s2. split; [done|]. split; [done|].
    by rewrite L2, L1, <- app_assoc.
Qed.

(** X5. Remote inserts are applied in arrival order and lose nothing:
    after any sequence of INSERT notifications the committed list, read
    back through the heap, is the list before followed by the delivered
    rows in the order they arrived. *)
Theorem remote_inserts_append_in_order (pr : Props) (rows : list StrokeRow)
    (s : State) :
  wf s = true ->
  exists s',
    run pr (map RemoteInsert rows) s = Ok s'
    /\ log_rows s' = log_rows s ++ rows.
Proof.
  intros HW%wf_WF. destruct (remote_inserts_run pr rows s HW) as (s' & H & _ & L).
  by exists s'.
Qed.

Lemma remote_inserts_witness :
  wf demo_scene = true
  /\ exists s',
       run demo_props
         (map RemoteInsert
            [mkStrokeRow "r1" (Some [mkPoint 1 1; mkPoint 2 2]) "#00ff00" 2 "pen" "U2";
             mkStrokeRow "r2" None "#00ff00" 2 "eraser" "U3"])
         demo_scene = Ok s'
       /\ log_rows s'
          = log_rows demo_scene
            ++ [mkStrokeRow "r1" (Some [mkPoint 1 1; mkPoint 2 2]) "#00ff00" 2 "pen" "U2";
                mkStrokeRow "r2" None "#00ff00" 2 "eraser" "U3"].
Proof.
  assert (H : wf demo_scene = true) by (vm_compute; reflexivity).
  split; [exact H|].
  exact (remote_inserts_append_in_order demo_props _ demo_scene H).
Defined.

(** X6. Two clients that start from the same list and receive the same
    INSERT notifications in different orders end with the same strokes,
    up to order. *)
Theorem remote_inserts_converge (pr : Props) (rows rows' : list StrokeRow)
    (s : State) :
  wf s = true -> Permutation rows rows' ->
  exists s1 s2,
    run pr (map RemoteInsert rows) s = Ok s1
    /\ run pr (map RemoteInsert rows') s = Ok s2
    /\ Permutation (log_rows s1) (log_rows s2).
Proof.
  intros HW%wf_WF Hp.
  destruct (remote_inserts_run pr rows s HW) as (s1 & H1 & _ & L1).
  destruct (remote_inserts_run pr rows' s HW) as (s2 & H2 & _ & L2).
  exists s1, s2. split; [done|]. split; [done|].
  rewrite L1, L2. by apply Permutation_app_head.
Qed.

Lemma remote_inserts_converge_witness :
  wf demo_scene = true
  /\ Permutation
       [mkStrokeRow "r1" (Some [mkPoint 1 1; mkPoint 2 2]) "#00ff00" 2 "pen" "U2";
        mkStrokeRow "r2" None "#00ff00" 2 "eraser" "U3"]
       [mkStrokeRow "r2" None "#00ff00" 2 "eraser" "U3";
        mkStrokeRow "r1" (Some [mkPoint 1 1; mkPoint 2 2]) "#00ff00" 2 "pen" "U2"]
  /\ exists s1 s2,
       run demo_props
         (map RemoteInsert
            [mkStrokeRow "r1" (Some [mkPoint 1 1; mkPoint 2 2]) "#00ff00" 2 "pen" "U2";
             mkStrokeRow "r2" None "#00ff00" 2 "eraser" "U3"])
         demo_scene = Ok s1
       /\ run demo_props
            (map RemoteInsert
               [mkStrokeRow "r2" None "#00ff00" 2 "eraser" "U3";
                mkStrokeRow "r1" (Some [mkPoint 1 1; mkPoint 2 2]) "#00ff00" 2 "pen" "U2"])
            demo_scene = Ok s2
       /\ Permutation (log_rows s1) (log_rows s2).
Proof.
  assert (H : wf demo_scene = true) by (vm_compute; reflexivity).
  assert (P : Permutation
                [mkStrokeRow "r1" (Some [mkPoint 1 1; mkPoint 2 2]) "#00ff00" 2 "pen" "U2";
                 mkStrokeRow "r2" None "#00ff00" 2 "eraser" "U3"]
                [mkStrokeRow "r2" None "#00ff00" 2 "eraser" "U3";
                 mkStrokeRow "r1" (Some [mkPoint 1 1; mkPoint 2 2]) "#00ff00" 2 "pen" "U2"])
    by apply perm_swap.
  split; [exact H|]. split; [exact P|].
  exact (remote_inserts_converge demo_props _ _ demo_scene H P).
Defined.

(** X7. The component does not recognise its own stroke when the transport
    echoes it: after a local commit, the INSERT notification for the row
    it submitted is appended as a second stroke with the same points,
    colour, size and tool, next to the one with the temporary id. *)
Theorem echo_is_appended_again (pr : Props) (now : Z) (id : string)
    (s : State) (a : addr) :
  wf s = true -> isDrawingRef s = true ->
  currentPointsRef s = Some a -> deref (heap s) a <> [] ->
  exists s',
    run pr [PointerUp now; RemoteInsert (echo_row id pr a s)] s = Ok s'
    /\ log_rows s'
       = log_rows s
         ++ [echo_row ("local-" +:+ pretty now) pr a s; echo_row id pr a s].
Proof.
  intros HW%wf_WF Hd Ha Hne. cbn [run step]. unfold handlePointerUp.
  rewrite Hd. simpl.
  destruct (commitStroke_commits pr now (set_isDrawingRef false s) a Ha Hne)
    as [cv Hc].
  rewrite Hc. cbn [rbind].
  match goal with |- context [onInsert _ ?t] =>
    assert (HW1 : WF t);
    [|destruct (onInsert_read pr (echo_row id pr a s) t HW1) as (s' & Hi & _ & Hl)]
  end.
  { assert (Hup : step pr (PointerUp now) s
                  = Ok (set_canvasRef cv
                          (set_inserts
                             (inserts (set_isDrawingRef false s)
                              ++ [insert_row pr a (set_isDrawingRef false s)])
                             (set_strokes
                                (strokes (set_isDrawingRef false s)
                                 ++ [local_stroke pr now a (set_isDrawingRef false s)])
                                (set_strokesRef
                                   (strokes (set_isDrawingRef false s)
                                    ++ [local_stroke pr now a (set_isDrawingRef false s)])
                                   (set_isDrawingRef false s)))))).
    { cbn [step]. unfold handlePointerUp. rewrite Hd. simpl. exact Hc. }
    by destruct (step_effect pr (PointerUp now) s _ HW Hup). }
  exists s'. rewrite Hi. split; [done|]. rewrite Hl. unfold log_rows. simpl_state.
  rewrite map_app, <- app_assoc. reflexivity.
Qed.

Lemma echo_witness :
  wf demo_scene = true
  /\ isDrawingRef demo_scene = true
  /\ currentPointsRef demo_scene = Some 2
  /\ deref (heap demo_scene) 2 <> []
  /\ exists s',
       run demo_props [PointerUp 17%Z; RemoteInsert (echo_row "db-1" demo_props 2 demo_scene)]
         demo_scene = Ok s'
       /\ log_rows s'
          = log_rows demo_scene
            ++ [echo_row ("local-" +:+ pretty 17%Z) demo_props 2 demo_scene;
                echo_row "db-1" demo_props 2 demo_scene].
Proof.
  assert (H1 : wf demo_scene = true) by (vm_compute; reflexivity).
  assert (H2 : isDrawingRef demo_scene = true) by reflexivity.
  assert (H3 : currentPointsRef demo_scene = Some 2) by reflexivity.
  assert (H4 : deref (heap demo_scene) 2 <> []) by (vm_compute; discriminate).
  split; [exact H1|]. split; [exact H2|]. split; [exact H3|]. split; [exact H4|].
  exact (echo_is_appended_again demo_props 17%Z "db-1" demo_scene 2 H1 H2 H3 H4).
Defined.

(** * More about the renderer *)

Lemma committed_paint_snoc_visible (h : Heap) (l : list Stroke) (sk : Stroke)
    (pts : list Point) (st : Ctx2D) :
  visible_points h sk = Some pts ->
  committed_paint h (l ++ [sk]) st
  = (fst (committed_paint h l st)
       ++ [StrokePath
             (style_for (s_tool sk) (s_color sk) (s_size sk)
                (snd (committed_paint h l st)))
             (polyline pts)],
     style_for (s_tool sk) (s_color sk) (s_size sk)
       (snd (committed_paint h l st))).
Proof.
  intros Hsk. revert st. induction l as [|sk' l IH]; intros st; simpl.
  - by rewrite Hsk.
  - destruct (visible_points h sk'); by rewrite IH.
Qed.

(** X8. Between the pointer-up and the moment its insert settles, a
    finished stroke of at least two points is painted twice by the redraw:
    once as the last committed stroke and once more as the transient
    stroke, because [currentPointsRef] still holds its array; both paths
    have the same points, tool, colour and size. *)
Theorem finished_stroke_is_painted_twice (pr : Props) (now : Z) (s : State)
    (c : Canvas) (a : addr) :
  canvasRef s = Some c -> isDrawingRef s = true ->
  currentPointsRef s = Some a -> 2 <= length (deref (heap s) a) ->
  exists s' op1 op2 st,
    handlePointerUp pr now s = Ok s'
    /\ currentPointsRef s' = Some a
    /\ screen s'
       = residue c ++ background_paint c
           :: fst (committed_paint (heap s) (strokes s) (scene_state c))
           ++ [op1; op2] ++ cursor_paint (remoteCursors s) st
    /\ brushed (currentToolRef s) (currentColorRef s) (brushSizeRef s)
         (polyline (deref (heap s) a)) op1
    /\ brushed (currentToolRef s) (currentColorRef s) (brushSizeRef s)
         (polyline (deref (heap s) a)) op2.
Proof.
  intros Hc Hd Ha Hlen. unfold handlePointerUp. rewrite Hd. simpl.
  assert (Hne : deref (heap s) a <> []).
  { intros E. rewrite E in Hlen. simpl in Hlen. lia. }
  destruct (commitStroke_mounted pr now (set_isDrawingRef false s) a c Hc Ha Hne)
    as (c' & Hcm & Hs).
  eexists _, _, _, _. split; [exact Hcm|]. unfold screen. simpl_state.
  split; [done|]. rewrite Hs. unfold foreground. simpl_state.
  assert (Hv : visible_points (heap s)
                 (local_stroke pr now a (set_isDrawingRef false s))
               = Some (deref (heap s) a)).
  { unfold visible_points, local_stroke. simpl.
    destruct (Nat.ltb_spec (length (deref (heap s) a)) 2); [lia|done]. }
  rewrite (committed_paint_snoc_visible _ _ _ _ _ Hv). simpl.
  unfold pending_paint, pending_points. simpl_state. rewrite Ha.
  destruct (Nat.leb_spec 2 (length (deref (heap s) a))); [|lia]. simpl.
  rewrite <- app_assoc. simpl.
  split; [reflexivity|]. split; apply style_for_brushed.
Qed.

Lemma finished_stroke_witness :
  canvasRef demo_scene = Some demo_canvas
  /\ isDrawingRef demo_scene = true
  /\ currentPointsRef demo_scene = Some 2
  /\ 2 <= length (deref (heap demo_scene) 2)
  /\ exists s' op1 op2 st,
       handlePointerUp demo_props 17%Z demo_scene = Ok s'
       /\ currentPointsRef s' = Some 2
       /\ screen s'
          = residue demo_canvas ++ background_paint demo_canvas
              :: fst (committed_paint (heap demo_scene) (strokes demo_scene)
                        (scene_state demo_canvas))
              ++ [op1; op2] ++ cursor_paint (remoteCursors demo_scene) st
       /\ brushed (currentToolRef demo_scene) (currentColorRef demo_scene)
            (brushSizeRef demo_scene) (polyline (deref (heap demo_scene) 2)) op1
       /\ brushed (currentToolRef demo_scene) (currentColorRef demo_scene)
            (brushSizeRef demo_scene) (polyline (deref (heap demo_scene) 2)) op2.
Proof.
  assert (H1 : canvasRef demo_scene = Some demo_canvas) by reflexivity.
  assert (H2 : isDrawingRef demo_scene = true) by reflexivity.
  assert (H3 : currentPointsRef demo_scene = Some 2) by reflexivity.
  assert (H4 : 2 <= length (deref (heap demo_scene) 2)) by (vm_compute; lia).
  split; [exact H1|]. split; [exact H2|]. split; [exact H3|]. split; [exact H4|].
  exact (finished_stroke_is_painted_twice demo_props 17%Z demo_scene demo_canvas 2
           H1 H2 H3 H4).
Defined.

Lemma moves_without_array (pr : Props) (moves : list Event) :
  forall (s : State) (c : Canvas),
    forallb is_move moves = true ->
    canvasRef s = Some c -> currentPointsRef s = None ->
    exists s',
      run pr moves s = Ok s'
      /\ strokes s' = strokes s /\ strokesRef s' = strokesRef s
      /\ inserts s' = inserts s /\ heap s' = heap s
      /\ canvasRef s' = canvasRef s
      /\ currentPointsRef s' = None
      /\ isDrawingRef s' = isDrawingRef s.
Proof.
  induction moves as [|ev moves IH]; intros s c Hm Hc Ha; simpl.
  - exists s. by repeat (split; [done|]).
  - simpl in Hm. apply andb_true_iff in Hm as [Hev Hm].
    destruct ev as [| cx cy now | | | | | | | | | ]; try discriminate Hev.
    cbn [step]. unfold handlePointerMove, getPointFromEvent.
    rewrite Hc. cbn [rbind]. simpl_state. rewrite Ha.
    assert (Hq : (if negb (isDrawingRef s)
                  then Ok (set_tracked
                             (tracked s ++
                                [mkPresence (userId pr) (userName pr) (userColor pr)
                                   (cx - cv_left c) (cy - cv_top c) now]) s)
                  else Ok (set_tracked
                             (tracked s ++
                                [mkPresence (userId pr) (userName pr) (userColor pr)
                                   (cx - cv_left c) (cy - cv_top c) now]) s))
                 = Ok (set_tracked
                         (tracked s ++
                            [mkPresence (userId pr) (userName pr) (userColor pr)
                               (cx - cv_left c) (cy - cv_top c) now]) s))
      by (by destruct (isDrawingRef s)).
    simpl. rewrite Hq. simpl.
    match goal with |- context [run pr moves ?t] =>
      destruct (IH t c Hm Hc Ha) as (s' & Hr & H1 & H2 & H3 & H4 & H5 & H6 & H7)
    end.
    exists s'. split; [done|]. simpl_state. repeat (split; [done|]).
    split; [congruence|]. by split.
Qed.

(** X9. If the insert of the previous stroke settles while a new gesture is
    being captured, the new gesture is lost: [commitStroke] resets
    [currentPointsRef] after its await, so the moves that follow draw and
    record nothing, and the pointer-up appends nothing to the committed
    list and submits nothing. *)
Theorem settle_during_gesture_loses_it (pr : Props) (s : State) (c : Canvas)
    (error : option string) (moves : list Event) (now : Z) :
  canvasRef s = Some c -> forallb is_move moves = true ->
  exists s',
    run pr (InsertSettled error :: moves ++ [PointerUp now]) s = Ok s'
    /\ strokes s' = strokes s
    /\ inserts s' = inserts s
    /\ heap s' = heap s
    /\ screen s' = screen s
    /\ isDrawingRef s' = false
    /\ currentPointsRef s' = None.
Proof.
  intros Hc Hm. cbn [run step rbind]. rewrite run_app.
  destruct (moves_without_array pr moves (commitStroke_resume error s) c Hm)
    as (s1 & Hr & H1 & H2 & H3 & H4 & H5 & H6 & H7).
  { unfold commitStroke_resume. by destruct error. }
  { unfold commitStroke_resume. by destruct error. }
  rewrite Hr. cbn [rbind run step]. unfold handlePointerUp, commitStroke.
  assert (E1 : strokes (commitStroke_resume error s) = strokes s)
    by (unfold commitStroke_resume; by destruct error).
  assert (E2 : inserts (commitStroke_resume error s) = inserts s)
    by (unfold commitStroke_resume; by destruct error).
  assert (E3 : heap (commitStroke_resume error s) = heap s)
    by (unfold commitStroke_resume; by destruct error).
  assert (E4 : canvasRef (commitStroke_resume error s) = canvasRef s)
    by (unfold commitStroke_resume; by destruct error).
  destruct (isDrawingRef s1) eqn:Hd; simpl; simpl_state; rewrite ?H6.
  - eexists. split; [reflexivity|]. unfold screen. simpl_state.
    rewrite H1, H3, H4, H5, E1, E2, E3, E4. by repeat (split; [done|]).
  - exists s1. split; [done|]. unfold screen.
    rewrite H1, H3, H4, H5, E1, E2, E3, E4. by repeat (split; [done|]).
Qed.

Lemma settle_during_gesture_witness :
  canvasRef demo_scene = Some demo_canvas
  /\ forallb is_move [PointerMove 30 30 5%Z; PointerMove 40 35 6%Z] = true
  /\ exists s',
       run demo_props
         (InsertSettled None
            :: [PointerMove 30 30 5%Z; PointerMove 40 35 6%Z] ++ [PointerUp 7%Z])
         demo_scene = Ok s'
       /\ strokes s' = strokes demo_scene
       /\ inserts s' = inserts demo_scene
       /\ heap s' = heap demo_scene
       /\ screen s' = screen demo_scene
       /\ isDrawingRef s' = false
       /\ currentPointsRef s' = None.
Proof.
  assert (H1 : canvasRef demo_scene = Some demo_canvas) by reflexivity.
  assert (H2 : forallb is_move [PointerMove 30 30 5%Z; PointerMove 40 35 6%Z] = true)
    by reflexivity.
  split; [exact H1|]. split; [exact H2|].
  exact (settle_during_gesture_loses_it demo_props demo_scene demo_canvas None
           [PointerMove 30 30 5%Z; PointerMove 40 35 6%Z] 7%Z H1 H2).
Defined.

(** X10. Painting leaves the 2D context as it found it: a full redraw and
    an incremental segment draw change the compositing mode, colours and
    line width only between a [save] and the matching [restore], so the
    drawing state, the save stack and the geometry of the canvas are the
    same afterwards, and nothing else in the component changes. *)
Theorem painting_restores_the_context (s : State) (c : Canvas) :
  canvasRef s = Some c ->
  (exists c',
     redrawAll s = Ok (set_canvasRef (Some c') s)
     /\ cv_state c' = cv_state c /\ same_frame c c')
  /\ (forall from to,
        exists c',
          drawSegment (Some from) to s = Ok (set_canvasRef (Some c') s)
          /\ cv_state c' = cv_state c /\ same_frame c c').
Proof.
  intros Hc. split.
  - destruct (redrawAll_mounted s c Hc) as (c' & R & _ & T & F). by exists c'.
  - intros from to. unfold drawSegment. rewrite Hc.
    eexists. split; [reflexivity|].
    destruct (String.eqb (currentToolRef s) "eraser");
      (split; [reflexivity|]); unfold same_frame; simpl; by repeat (split; [done|]).
Qed.

Lemma painting_restores_witness :
  canvasRef demo_scene = Some demo_canvas
  /\ (exists c',
        redrawAll demo_scene = Ok (set_canvasRef (Some c') demo_scene)
        /\ cv_state c' = cv_state demo_canvas /\ same_frame demo_canvas c')
  /\ (forall from to,
        exists c',
          drawSegment (Some from) to demo_scene
          = Ok (set_canvasRef (Some c') demo_scene)
          /\ cv_state c' = cv_state demo_canvas /\ same_frame demo_canvas c').
Proof.
  assert (H1 : canvasRef demo_scene = Some demo_canvas) by reflexivity.
  split; [exact H1|].
  exact (painting_restores_the_context demo_scene demo_canvas H1).
Defined.

Lemma style_for_round (tool color : string) (size : number) (st : Ctx2D) :
  lineJoin st = "round" /\ lineCap st = "round" ->
  lineJoin (style_for tool color size st) = "round"
  /\ lineCap (style_for tool color size st) = "round".
Proof. unfold style_for. by destruct (String.eqb tool "eraser"). Qed.

Lemma committed_paint_round (h : Heap) (l : list Stroke) (st : Ctx2D) :
  lineJoin st = "round" /\ lineCap st = "round" ->
  Forall round_stroke (fst (committed_paint h l st))
  /\ lineJoin (snd (committed_paint h l st)) = "round"
  /\ lineCap (snd (committed_paint h l st)) = "round".
Proof.
  revert st. induction l as [|sk l IH]; intros st Hst; simpl.
  - split; [constructor|done].
  - destruct (visible_points h sk) as [pts|]; [|by apply IH]. simpl.
    pose proof (style_for_round (s_tool sk) (s_color sk) (s_size sk) st Hst) as Hr.
    destruct (IH _ Hr) as [H1 H2]. split; [|done]. by constructor.
Qed.

Lemma cursor_paint_round (m : JsMap RemoteCursor) (st : Ctx2D) :
  Forall round_stroke (cursor_paint m st).
Proof.
  revert st. induction m as [|[k cursor] m IH]; intros st; simpl; [constructor|].
  by do 2 (constructor; [done|]).
Qed.

(** X11. Every path stroked by a full redraw, committed or transient, and
    every segment stroked incrementally has round joins and round caps. *)
Theorem strokes_are_painted_round (s : State) (c : Canvas) :
  canvasRef s = Some c ->
  (exists s' painted,
     redrawAll s = Ok s'
     /\ screen s' = residue c ++ painted
     /\ Forall round_stroke painted)
  /\ (forall from to,
        exists s' op,
          drawSegment (Some from) to s = Ok s'
          /\ screen s' = screen s ++ [op]
          /\ round_stroke op).
Proof.
  intros Hc. split.
  - destruct (redrawAll_mounted s c Hc) as (c' & R & S & _).
    eexists _, _. split; [exact R|]. unfold screen. simpl_state.
    split; [exact S|]. constructor; [done|]. unfold foreground.
    assert (Hst : lineJoin (scene_state c) = "round"
                  /\ lineCap (scene_state c) = "round") by done.
    destruct (committed_paint_round (heap s) (strokesRef s) _ Hst) as (P1 & P2).
    apply Forall_app. split; [done|]. apply Forall_app.
    split; [|apply cursor_paint_round].
    unfold pending_paint. destruct (pending_points s); simpl; [|constructor].
    constructor; [|constructor]. by apply style_for_round.
  - intros from to. destruct (drawSegment_spec from to s c Hc) as (c' & D & S & _).
    eexists _, _. split; [exact D|]. unfold screen. simpl_state. rewrite Hc.
    split; [exact S|]. unfold round_stroke, round_style. by simpl.
Qed.

Lemma strokes_are_painted_round_witness :
  canvasRef demo_scene = Some demo_canvas
  /\ (exists s' painted,
        redrawAll demo_scene = Ok s'
        /\ screen s' = residue demo_canvas ++ painted
        /\ Forall round_stroke painted)
  /\ (forall from to,
        exists s' op,
          drawSegment (Some from) to demo_scene = Ok s'
          /\ screen s' = screen demo_scene ++ [op]
          /\ round_stroke op).
Proof.
  assert (H1 : canvasRef demo_scene = Some demo_canvas) by reflexivity.
  split; [exact H1|].
  exact (strokes_are_painted_round demo_scene demo_canvas H1).
Defined.

Lemma committed_paint_mode (h : Heap) (l : list Stroke) (st : Ctx2D) :
  globalCompositeOperation (snd (committed_paint h l st))
  = match last (List.filter (is_visible h) l) with
    | Some sk =>
        if String.eqb (s_tool sk) "eraser" then "destination-out"
        else "source-over"
    | None => globalCompositeOperation st
    end.
Proof.
  revert st. induction l as [|sk l IH]; intros st; simpl; [done|].
  unfold is_visible at 1. destruct (visible_points h sk) as [pts|]; [|apply IH].
  simpl. rewrite IH, last_cons.
  destruct (last (List.filter (is_visible h) l)); [done|].
  unfold style_for. by destruct (String.eqb (s_tool sk) "eraser").
Qed.

Lemma cursor_paint_mode (m : JsMap RemoteCursor) (st : Ctx2D) :
  Forall (fun op => paint_mode op = Some (globalCompositeOperation st))
    (cursor_paint m st)
  /\ length (cursor_paint m st) = 2 * length m.
Proof.
  revert st. induction m as [|[k cursor] m IH]; intros st; simpl.
  - split; [constructor|done].
  - destruct (IH (label_style st)) as [H1 H2]. split.
    + do 2 (constructor; [done|]). exact H1.
    + rewrite H2. lia.
Qed.

(** X12. The remote cursors are painted under whatever compositing mode the
    strokes left behind: [source-over] when a transient stroke was drawn,
    otherwise the mode of the last committed stroke that was drawn. When
    that stroke is an eraser stroke the cursor dots and labels are painted
    with [destination-out], cutting holes instead of showing. *)
Theorem cursors_inherit_the_compositing_mode (s : State) (c : Canvas) :
  canvasRef s = Some c ->
  exists s' before cursors,
    redrawAll s = Ok s'
    /\ screen s' = before ++ cursors
    /\ length cursors = 2 * length (remoteCursors s)
    /\ Forall (fun op => paint_mode op = Some (cursor_mode s c)) cursors.
Proof.
  intros Hc. destruct (redrawAll_mounted s c Hc) as (c' & R & S & _).
  exists (set_canvasRef (Some c') s),
    (residue c ++ background_paint c
       :: fst (committed_paint (heap s) (strokesRef s) (scene_state c))
       ++ fst (pending_paint s
                 (snd (committed_paint (heap s) (strokesRef s) (scene_state c))))),
    (cursor_paint (remoteCursors s)
       (snd (pending_paint s
               (snd (committed_paint (heap s) (strokesRef s) (scene_state c)))))).
  split; [exact R|]. unfold screen. simpl_state. split.
  { rewrite S. unfold foreground. by rewrite <- !app_assoc, <- app_comm_cons,
      <- !app_assoc. }
  match goal with |- context [cursor_paint ?m ?st] =>
    destruct (cursor_paint_mode m st) as [H1 H2] end.
  split; [exact H2|].
  assert (Hmode : globalCompositeOperation
                    (snd (pending_paint s
                            (snd (committed_paint (heap s) (strokesRef s)
                                    (scene_state c)))))
                  = cursor_mode s c).
  { unfold pending_paint, cursor_mode. destruct (pending_points s); [done|].
    simpl. by rewrite committed_paint_mode. }
  by rewrite <- Hmode.
Qed.

Lemma cursors_mode_witness :
  canvasRef demo_erased = Some demo_canvas
  /\ exists s' before cursors,
       redrawAll demo_erased = Ok s'
       /\ screen s' = before ++ cursors
       /\ length cursors = 2 * length (remoteCursors demo_erased)
       /\ Forall (fun op => paint_mode op = Some (cursor_mode demo_erased demo_canvas))
            cursors.
Proof.
  assert (H1 : canvasRef demo_erased = Some demo_canvas) by reflexivity.
  split; [exact H1|].
  exact (cursors_inherit_the_compositing_mode demo_erased demo_canvas H1).
Defined.

(** On the example board with the gesture over, the last committed stroke
    is the eraser stroke, and the cursor is painted [destination-out]. *)
Example cursor_is_erased_example :
  cursor_mode demo_erased demo_canvas = "destination-out"
  /\ omap paint_mode (screen (default demo_erased
                                (match redrawAll demo_erased with
                                 | Ok s => Some s
                                 | TypeError _ => None
                                 end)))
     = ["source-over"; "source-over"; "destination-out";
        "destination-out"; "destination-out"].
Proof. split; vm_compute; reflexivity. Qed.

(** * Presence: which record wins *)

Lemma map_get_set_eq {V : Type} (k : string) (v : V) (m : JsMap V) :
  map_get k (map_set k v m) = Some v.
Proof.
  induction m as [|[k' v'] m IH]; simpl.
  - by rewrite String.eqb_refl.
  - destruct (String.eqb_spec k' k) as [->|Hne]; simpl.
    + by rewrite String.eqb_refl.
    + by destruct (String.eqb_spec k' k).
Qed.

Lemma map_get_set_ne {V : Type} (k k0 : string) (v : V) (m : JsMap V) :
  k0 <> k -> map_get k0 (map_set k v m) = map_get k0 m.
Proof.
  intros Hne. induction m as [|[k' v'] m IH]; simpl.
  - by destruct (String.eqb_spec k k0); [congruence|].
  - destruct (String.eqb_spec k' k) as [->|Hk]; simpl.
    + destruct (String.eqb_spec k k0); [congruence|done].
    + by rewrite IH.
Qed.

Lemma sync_fold_get (pr : Props) (state : PresenceState) (u : string)
    (keys : list string) :
  forall acc : JsMap RemoteCursor,
    map_get u (fold_left (sync_key pr state) keys acc)
    = match last (List.filter (fun p => String.eqb (user_id p) u)
                    (List.filter (fun p => negb (String.eqb (user_id p) (userId pr)))
                       (omap (first_record state) keys))) with
      | Some p => Some (cursor_of_presence p)
      | None => map_get u acc
      end.
Proof.
  induction keys as [|key keys IH]; intros acc; simpl; [done|].
  destruct (map_get key state) as [[|presence rest]|] eqn:Hget.
  - assert (Hk : sync_key pr state acc key = acc)
      by (unfold sync_key; by rewrite Hget).
    assert (Hf : first_record state key = None)
      by (unfold first_record; by rewrite Hget).
    rewrite Hk, Hf. apply IH.
  - assert (Hf : first_record state key = Some presence)
      by (unfold first_record; by rewrite Hget).
    rewrite Hf. simpl.
    destruct (String.eqb_spec (user_id presence) (userId pr)) as [Heq|Hne]; simpl.
    + assert (Hk : sync_key pr state acc key = acc).
      { unfold sync_key. rewrite Hget, Heq. by rewrite String.eqb_refl. }
      rewrite Hk. apply IH.
    + assert (Hk : sync_key pr state acc key
                   = map_set (user_id presence) (cursor_of_presence presence) acc).
      { unfold sync_key. rewrite Hget.
        by destruct (String.eqb_spec (user_id presence) (userId pr)). }
      rewrite Hk, IH.
      destruct (String.eqb_spec (user_id presence) u) as [<-|Hu]; simpl.
      * rewrite last_cons, map_get_set_eq. by destruct (last _).
      * by rewrite map_get_set_ne by done.
  - assert (Hk : sync_key pr state acc key = acc)
      by (unfold sync_key; by rewrite Hget).
    assert (Hf : first_record state key = None)
      by (unfold first_record; by rewrite Hget).
    rewrite Hk, Hf. apply IH.
Qed.

(** X13. When several connection keys carry the same remote user, the
    cursor kept for that user after a presence sync is the first record of
    the last such key in [Object.keys] order; a user no key carries, and
    the local user, have no entry. *)
Theorem presence_sync_last_key_wins (pr : Props) (state : PresenceState)
    (u : string) :
  map_get u (sync_cursors pr state)
  = option_map cursor_of_presence
      (last (List.filter (fun p => String.eqb (user_id p) u)
               (remote_records pr state))).
Proof.
  unfold sync_cursors, remote_records. rewrite sync_fold_get. simpl.
  by destruct (last _).
Qed.

(** * Resizing *)

Lemma resizeCanvas_spec (width height dpr : number) (layout : Layout)
    (s : State) (c0 : Canvas) :
  canvasRef s = Some c0 ->
  exists c',
    resizeCanvas (Some (width, height)) dpr layout s
    = Ok (set_canvasRef (Some c') s)
    /\ cv_surface c'
       = residue (resized_canvas width height (device_pixel_ratio dpr) layout)
         ++ background_paint
              (resized_canvas width height (device_pixel_ratio dpr) layout)
            :: fst (committed_paint (heap s) (strokesRef s)
                      (scene_state
                         (resized_canvas width height (device_pixel_ratio dpr)
                            layout)))
            ++ fst (pending_paint s
                      (snd (committed_paint (heap s) (strokesRef s)
                              (scene_state
                                 (resized_canvas width height
                                    (device_pixel_ratio dpr) layout)))))
    /\ cv_state c' = default_ctx
    /\ same_frame (resized_canvas width height (device_pixel_ratio dpr) layout) c'.
Proof.
  intros Hc. unfold resizeCanvas. rewrite Hc.
  destruct (redraw_spec (set_remoteCursors [] s)
              (resized_canvas width height (device_pixel_ratio dpr) layout))
    as (c' & R & S & T & F).
  rewrite R. cbn [rbind]. exists c'. split; [done|]. split; [|by split].
  rewrite S. unfold foreground, pending_paint, pending_points. simpl_state.
  simpl. by rewrite app_nil_r.
Qed.

Lemma committed_paint_no_cursor (h : Heap) (l : list Stroke) (st : Ctx2D) :
  Forall (fun op => match op with
                    | FillPath _ _ | FillText _ _ _ _ => False
                    | _ => True
                    end) (fst (committed_paint h l st)).
Proof.
  revert st. induction l as [|sk l IH]; intros st; simpl; [constructor|].
  destruct (visible_points h sk); [|apply IH]. simpl.
  constructor; [done|apply IH].
Qed.

(** X14. A resize of a mounted canvas inside a mounted container never
    throws and changes nothing but the canvas: the committed list, the
    heap, the gesture in progress and the cursor map are kept. It repaints
    the background, the committed strokes and the transient stroke on the
    cleared bitmap, but no remote cursor, whatever the cursor map holds:
    the callback keeps calling the [redrawAll] of the first render. Without
    a canvas or without a container it does nothing. *)
Theorem resize_repaints_without_cursors (width height dpr : number)
    (layout : Layout) (s : State) :
  (forall c0, canvasRef s = Some c0 ->
     exists c',
       resizeCanvas (Some (width, height)) dpr layout s
       = Ok (set_canvasRef (Some c') s)
       /\ cv_surface c'
          = residue (resized_canvas width height (device_pixel_ratio dpr) layout)
            ++ background_paint
                 (resized_canvas width height (device_pixel_ratio dpr) layout)
               :: fst (committed_paint (heap s) (strokesRef s)
                         (scene_state
                            (resized_canvas width height (device_pixel_ratio dpr)
                               layout)))
               ++ fst (pending_paint s
                         (snd (committed_paint (heap s) (strokesRef s)
                                 (scene_state
                                    (resized_canvas width height
                                       (device_pixel_ratio dpr) layout)))))
       /\ Forall (fun op => match op with
                            | FillPath _ _ | FillText _ _ _ _ => False
                            | _ => True
                            end) (cv_surface c'))
  /\ (canvasRef s = None ->
      resizeCanvas (Some (width, height)) dpr layout s = Ok s)
  /\ resizeCanvas None dpr layout s = Ok s.
Proof.
  split; [|split].
  - intros c0 Hc.
    destruct (resizeCanvas_spec width height dpr layout s c0 Hc)
      as (c' & R & S & _).
    exists c'. split; [done|]. split; [done|]. rewrite S.
    apply Forall_app. split.
    { unfold residue, clearRect. simpl. destruct (covers_bitmap _ _ _ _ _); simpl;
        repeat constructor. }
    constructor; [done|]. apply Forall_app. split.
    + apply committed_paint_no_cursor.
    + unfold pending_paint. destruct (pending_points s); simpl; repeat constructor.
  - intros Hc. unfold resizeCanvas. by rewrite Hc.
  - unfold resizeCanvas. by destruct (canvasRef s).
Qed.

Lemma resize_witness :
  canvasRef demo_scene = Some demo_canvas
  /\ exists c',
       resizeCanvas (Some (400%Q, 300%Q)) 2 demo_layout demo_scene
       = Ok (set_canvasRef (Some c') demo_scene)
       /\ cv_surface c'
          = residue (resized_canvas 400 300 (device_pixel_ratio 2) demo_layout)
            ++ background_paint
                 (resized_canvas 400 300 (device_pixel_ratio 2) demo_layout)
               :: fst (committed_paint (heap demo_scene) (strokesRef demo_scene)
                         (scene_state
                            (resized_canvas 400 300 (device_pixel_ratio 2)
                               demo_layout)))
               ++ fst (pending_paint demo_scene
                         (snd (committed_paint (heap demo_scene)
                                 (strokesRef demo_scene)
                                 (scene_state
                                    (resized_canvas 400 300
                                       (device_pixel_ratio 2) demo_layout)))))
       /\ Forall (fun op => match op with
                            | FillPath _ _ | FillText _ _ _ _ => False
                            | _ => True
                            end) (cv_surface c').
Proof.
  assert (H1 : canvasRef demo_scene = Some demo_canvas) by reflexivity.
  split; [exact H1|].
  exact (proj1 (resize_repaints_without_cursors 400 300 2 demo_layout demo_scene)
           demo_canvas H1).
Defined.

Lemma bitmap_size_pos (css dpr : number) : (1 <= bitmap_size css dpr)%N.
Proof. unfold bitmap_size. lia. Qed.

(** X15. After a resize at a device pixel ratio of at least 1 (a ratio of
    0 counts as 1), the bitmap is at least one pixel wide and high, the
    drawing state is the default one, and nothing is on screen but what
    the resize painted; the next full redraw shows the background, the
    strokes and the remote cursors again, with nothing left over. *)
Theorem resize_then_redraw (width height dpr : number) (layout : Layout)
    (s : State) (c0 : Canvas) :
  canvasRef s = Some c0 -> (1 <= device_pixel_ratio dpr)%Q ->
  exists s1 c1 s2,
    resizeCanvas (Some (width, height)) dpr layout s = Ok s1
    /\ canvasRef s1 = Some c1
    /\ (1 <= cv_width c1)%N /\ (1 <= cv_height c1)%N
    /\ cv_scale c1 = device_pixel_ratio dpr
    /\ cv_state c1 = default_ctx
    /\ strokes s1 = strokes s /\ remoteCursors s1 = remoteCursors s
    /\ redrawAll s1 = Ok s2
    /\ screen s2
       = background_paint c1 :: foreground (strokesRef s) s c1
    /\ screen s2
       = screen s1
         ++ cursor_paint (remoteCursors s)
              (snd (pending_paint s
                      (snd (committed_paint (heap s) (strokesRef s)
                              (scene_state c1))))).
Proof.
  intros Hc Hd.
  destruct (resizeCanvas_spec width height dpr layout s c0 Hc)
    as (c1 & R & S & T & F).
  destruct (redrawAll_mounted (set_canvasRef (Some c1) s) c1 eq_refl)
    as (c2 & R2 & S2 & _).
  pose proof F as (Fw & Fh & _ & _ & Frw & Frh & Fs & _). simpl in Fw, Fh, Fs.
  assert (Hs1 : (1 <= cv_scale c1)%Q) by (by rewrite Fs).
  exists (set_canvasRef (Some c1) s), c1, (set_canvasRef (Some c2) s).
  split; [exact R|]. simpl_state. split; [done|].
  split; [rewrite Fw; apply bitmap_size_pos|].
  split; [rewrite Fh; apply bitmap_size_pos|].
  split; [done|]. split; [done|]. split; [done|]. split; [done|].
  split; [exact R2|]. unfold screen. simpl_state.
  rewrite S2, residue_nil by done.
  assert (Hfg : foreground (strokesRef s) (set_canvasRef (Some c1) s) c1
                = foreground (strokesRef s) s c1) by reflexivity.
  rewrite Hfg. split; [done|].
  rewrite S, residue_nil by done.
  assert (Hsc : scene_state c1
                = scene_state
                    (resized_canvas width height (device_pixel_ratio dpr) layout)).
  { unfold scene_state. by rewrite T. }
  assert (Hbg : background_paint c1
                = background_paint
                    (resized_canvas width height (device_pixel_ratio dpr) layout)).
  { unfold background_paint. by rewrite T, Frw, Frh. }
  rewrite Hbg, <- Hsc. unfold foreground. simpl.
  by rewrite <- !app_assoc.
Qed.

Lemma resize_then_redraw_witness :
  canvasRef demo_scene = Some demo_canvas
  /\ (1 <= device_pixel_ratio 0)%Q
  /\ exists s1 c1 s2,
       resizeCanvas (Some (0%Q, 300%Q)) 0 demo_layout demo_scene = Ok s1
       /\ canvasRef s1 = Some c1
       /\ (1 <= cv_width c1)%N /\ (1 <= cv_height c1)%N
       /\ cv_scale c1 = device_pixel_ratio 0
       /\ cv_state c1 = default_ctx
       /\ strokes s1 = strokes demo_scene
       /\ remoteCursors s1 = remoteCursors demo_scene
       /\ redrawAll s1 = Ok s2
       /\ screen s2
          = background_paint c1 :: foreground (strokesRef demo_scene) demo_scene c1
       /\ screen s2
          = screen s1
            ++ cursor_paint (remoteCursors demo_scene)
                 (snd (pending_paint demo_scene
                         (snd (committed_paint (heap demo_scene)
                                 (strokesRef demo_scene) (scene_state c1))))).
Proof.
  assert (H1 : canvasRef demo_scene = Some demo_canvas) by reflexivity.
  assert (H2 : (1 <= device_pixel_ratio 0)%Q) by (vm_compute; discriminate).
  split; [exact H1|]. split; [exact H2|].
  exact (resize_then_redraw 0 300 0 demo_layout demo_scene demo_canvas H1 H2).
Defined.

(** X16. A clear does not fence later inserts: after a DELETE notification
    the committed list is exactly the rows of the INSERT notifications that
    arrive after it, in arrival order, whatever the list held before; an
    insert that was in flight when the clear was issued reappears. *)
Theorem inserts_after_a_clear_reappear (pr : Props) (rows : list StrokeRow)
    (s : State) :
  wf s = true ->
  exists s',
    run pr (RemoteDelete :: map RemoteInsert rows) s = Ok s'
    /\ log_rows s' = rows.
Proof.
  intros HW%wf_WF. cbn [run step]. unfold onDelete.
  destruct (rerender_strokes_shape (set_strokesRef [] (set_strokes [] s)))
    as [cv Hr].
  assert (Hstep : step pr RemoteDelete s
                  = Ok (set_canvasRef cv
                          (set_strokesRef (strokes (set_strokesRef [] (set_strokes [] s)))
                             (set_strokesRef [] (set_strokes [] s)))))
    by exact Hr.
  destruct (step_effect pr RemoteDelete s _ HW Hstep) as [HW1 _].
  rewrite Hr. cbn [rbind].
  destruct (remote_inserts_run pr rows _ HW1) as (s' & H & _ & L).
  exists s'. split; [done|]. by rewrite L.
Qed.

Lemma inserts_after_a_clear_witness :
  wf demo_scene = true
  /\ exists s',
       run demo_props
         (RemoteDelete
            :: map RemoteInsert
                 [mkStrokeRow "r1" (Some [mkPoint 1 1; mkPoint 2 2]) "#00ff00" 2
                    "pen" "U2"])
         demo_scene = Ok s'
       /\ log_rows s'
          = [mkStrokeRow "r1" (Some [mkPoint 1 1; mkPoint 2 2]) "#00ff00" 2 "pen" "U2"].
Proof.
  assert (H : wf demo_scene = true) by (vm_compute; reflexivity).
  split; [exact H|].
  exact (inserts_after_a_clear_reappear demo_props _ demo_scene H).
Defined.
